(** * loldriversFinder: the pipeline orchestration engine

    A shallow embedding of [pipeline.py] and of the analysis steps under
    [examples/], with the properties of the orchestration engine proved
    about it.

    Conventions of the embedding.
    - A Python [str] is a [string] of UTF-8 bytes.  [py_strip] knows the
      code points Python's [str.isspace] accepts, in their UTF-8 form;
      [py_lower] lowers the ASCII letters and leaves every other byte as
      it is.
    - A Python [dict] is an association list in insertion order
      ([Dict V]); [dict_set] overwrites in place or appends, as item
      assignment does.
    - A raised exception is the [Err] side of [Result].
    - The analysis backend ([Assistant(...).run]) is an oracle carried by
      the [World]: its reply may depend on the conversation submitted and
      on how many conversations came before.  The prompt wording is not
      embedded: a [Conversation] records which step asks, about which
      function, with which extra context.
    - [log_step], [print_block] and [logging.exception] write console
      trace lines only and are left out; what the program prints with
      [print] itself is kept.  File and console I/O never fails, and a
      backend exception is of one class, [BackendError]. *)

From Stdlib Require Import String Ascii List ZArith Lia Bool DecimalString.
From stdpp Require Import gmap strings list.

Set Warnings "-register-all".

Open Scope string_scope.
Open Scope list_scope.
Open Scope nat_scope.
Open Scope stdpp_scope.

(* ===================================================================== *)
(** ** Python strings *)
(* ===================================================================== *)

Module PyStr.

(** The double quote, for building JSON text. *)
Definition dq : string := String (ascii_of_nat 34) EmptyString.

Definition code (c : ascii) : nat := nat_of_ascii c.

Definition in_range (lo hi : nat) (c : ascii) : bool :=
  (lo <=? code c) && (code c <=? hi).

(** [str.isspace] on the ASCII range: TAB..CR, FS..US and the space. *)
Definition ascii_space (c : ascii) : bool :=
  in_range 9 13 c || in_range 28 32 c.

(** U+0085 and U+00A0. *)
Definition space2 (c d : ascii) : bool :=
  (code c =? 194) && ((code d =? 133) || (code d =? 160)).

(** U+1680, U+2000..U+200A, U+2028, U+2029, U+202F, U+205F, U+3000. *)
Definition space3 (c d e : ascii) : bool :=
  ((code c =? 225) && (code d =? 154) && (code e =? 128))
  || ((code c =? 226) && (code d =? 128)
      && (in_range 128 138 e || (code e =? 168) || (code e =? 169) || (code e =? 175)))
  || ((code c =? 226) && (code d =? 129) && (code e =? 159))
  || ((code c =? 227) && (code d =? 128) && (code e =? 128)).

(** Drops leading white space.  With [back] the bytes of each code point
    are expected last byte first, which is how [py_rstrip] reads them. *)
Fixpoint lstrip_bytes (back : bool) (s : string) : string :=
  match s with
  | EmptyString => s
  | String c s1 =>
      if ascii_space c then lstrip_bytes back s1
      else
        match s1 with
        | EmptyString => s
        | String d s2 =>
            if (if back then space2 d c else space2 c d) then lstrip_bytes back s2
            else
              match s2 with
              | EmptyString => s
              | String e s3 =>
                  if (if back then space3 e d c else space3 c d e)
                  then lstrip_bytes back s3
                  else s
              end
        end
  end.

Definition py_lstrip (s : string) : string := lstrip_bytes false s.

Definition py_rstrip (s : string) : string :=
  String.rev (lstrip_bytes true (String.rev s)).

(** [s.strip()] *)
Definition py_strip (s : string) : string := py_rstrip (py_lstrip s).

Definition lower_ascii (c : ascii) : ascii :=
  if in_range 65 90 c then ascii_of_nat (code c + 32) else c.

(** [s.lower()] *)
Fixpoint py_lower (s : string) : string :=
  match s with
  | EmptyString => EmptyString
  | String c s' => String (lower_ascii c) (py_lower s')
  end.

(** [s.startswith(p)], returning what follows the prefix. *)
Fixpoint strip_prefix (p s : string) : option string :=
  match p, s with
  | EmptyString, _ => Some s
  | String a p', String b s' => if Ascii.eqb a b then strip_prefix p' s' else None
  | String _ _, EmptyString => None
  end.

Definition starts_with (p s : string) : bool :=
  match strip_prefix p s with Some _ => true | None => false end.

(** [needle in s] *)
Fixpoint contains (needle s : string) : bool :=
  starts_with needle s
  || match s with
     | EmptyString => false
     | String _ s' => contains needle s'
     end.

(** [sep.join(parts)] *)
Fixpoint join (sep : string) (parts : list string) : string :=
  match parts with
  | [] => ""
  | [p] => p
  | p :: rest => p +:+ sep +:+ join sep rest
  end.

(** [s.find(c)] for a one-character needle; [None] is Python's -1. *)
Fixpoint py_find (c : ascii) (s : string) : option nat :=
  match s with
  | EmptyString => None
  | String a s' => if Ascii.eqb a c then Some 0 else S <$> py_find c s'
  end.

(** [s.rfind(c)] *)
Fixpoint py_rfind (c : ascii) (s : string) : option nat :=
  match s with
  | EmptyString => None
  | String a s' =>
      match py_rfind c s' with
      | Some i => Some (S i)
      | None => if Ascii.eqb a c then Some 0 else None
      end
  end.

(** [s[first : last + 1]] *)
Definition slice_incl (first last : nat) (s : string) : string :=
  String.substring first (S last - first) s.

(** Truthiness of a string: [if s:]. *)
Definition nonempty (s : string) : bool :=
  match s with EmptyString => false | String _ _ => true end.

End PyStr.
Export PyStr.

(* ===================================================================== *)
(** ** Python dictionaries and exceptions *)
(* ===================================================================== *)

Definition Dict (V : Type) : Type := list (string * V).

Fixpoint dict_get {V : Type} (k : string) (d : Dict V) : option V :=
  match d with
  | [] => None
  | (k', v) :: d' => if String.eqb k k' then Some v else dict_get k d'
  end.

(** [d[k] = v] *)
Fixpoint dict_set {V : Type} (k : string) (v : V) (d : Dict V) : Dict V :=
  match d with
  | [] => [(k, v)]
  | (k', v') :: d' =>
      if String.eqb k k' then (k, v) :: d' else (k', v') :: dict_set k v d'
  end.

(** [k in d] *)
Definition has_key {V : Type} (k : string) (d : Dict V) : bool :=
  match dict_get k d with Some _ => true | None => false end.

Inductive Exn : Type :=
  | ValueError (msg : string)
  | RuntimeError (msg : string)
  | KeyError (key : string)
  | TypeError (msg : string)
  | BackendError (msg : string).

Inductive Result (A : Type) : Type :=
  | Ok (a : A)
  | Err (e : Exn).
Arguments Ok {A} a.
Arguments Err {A} e.

Definition is_ok {A : Type} (r : Result A) : bool :=
  match r with Ok _ => true | Err _ => false end.

(* ===================================================================== *)
(** ** JSON values and [json.loads] *)
(* ===================================================================== *)

Module Json.

(** What [json.loads] builds.  A number with a fraction or an exponent,
    and the constants NaN, Infinity and -Infinity, keep their lexeme. *)
Inductive JSON : Type :=
  | JNull
  | JBool (b : bool)
  | JInt (z : Z)
  | JFloat (lexeme : string)
  | JStr (s : string)
  | JArr (items : list JSON)
  | JObj (fields : list (string * JSON)).

(** The decoder's white space: space, TAB, LF, CR. *)
Definition json_space (c : ascii) : bool :=
  (code c =? 32) || (code c =? 9) || (code c =? 10) || (code c =? 13).

Fixpoint skip_ws (s : string) : string :=
  match s with
  | String c s' => if json_space c then skip_ws s' else s
  | EmptyString => s
  end.

Definition is_digit (c : ascii) : bool := in_range 48 57 c.

Fixpoint span_digits (s : string) : string * string :=
  match s with
  | String c s' =>
      if is_digit c then let (ds, r) := span_digits s' in (String c ds, r)
      else ("", s)
  | EmptyString => ("", s)
  end.

Fixpoint digits_value (acc : Z) (ds : string) : Z :=
  match ds with
  | String c ds' => digits_value (10 * acc + Z.of_nat (code c - 48)) ds'
  | EmptyString => acc
  end.

Definition is_char (n : nat) (c : ascii) : bool := code c =? n.

(** A number as the scanner's grammar has it: an optional minus sign; a
    zero, or a non-zero digit and any digits; an optional fraction (a dot
    and one digit or more); an optional exponent (e or E, an optional
    sign, one digit or more).  A dot or an exponent mark that no digit
    follows is not part of the number. *)
Definition scan_number (s : string) : option (JSON * string) :=
  let (neg, s1) :=
    match s with
    | String c r => if is_char 45 c then (true, r) else (false, s)
    | EmptyString => (false, s)
    end in
  match s1 with
  | EmptyString => None
  | String c r =>
      if is_digit c then
        let (ip, r1) :=
          if is_char 48 c then (String c "", r)
          else let (ds, r') := span_digits r in (String c ds, r') in
        let (frac, r2) :=
          match r1 with
          | String p r' =>
              if is_char 46 p then
                let (ds, r'') := span_digits r' in
                if nonempty ds then (String p ds, r'') else ("", r1)
              else ("", r1)
          | EmptyString => ("", r1)
          end in
        let (ex, r3) :=
          match r2 with
          | String e r' =>
              if is_char 101 e || is_char 69 e then
                let (sign, r'') :=
                  match r' with
                  | String g x =>
                      if is_char 43 g || is_char 45 g then (String g "", x) else ("", r')
                  | EmptyString => ("", r')
                  end in
                let (ds, r''') := span_digits r'' in
                if nonempty ds then (String e (sign +:+ ds), r''') else ("", r2)
              else ("", r2)
          | EmptyString => ("", r2)
          end in
        if nonempty frac || nonempty ex
        then Some (JFloat ((if neg then "-" else "") +:+ ip +:+ frac +:+ ex), r3)
        else Some (JInt (if neg then - digits_value 0 ip else digits_value 0 ip), r3)
      else None
  end.

(** The named constants, then a number. *)
Definition scan_atom (s : string) : option (JSON * string) :=
  match strip_prefix "null" s with
  | Some r => Some (JNull, r)
  | None =>
  match strip_prefix "true" s with
  | Some r => Some (JBool true, r)
  | None =>
  match strip_prefix "false" s with
  | Some r => Some (JBool false, r)
  | None =>
  match strip_prefix "NaN" s with
  | Some r => Some (JFloat "NaN", r)
  | None =>
  match strip_prefix "Infinity" s with
  | Some r => Some (JFloat "Infinity", r)
  | None =>
  match strip_prefix "-Infinity" s with
  | Some r => Some (JFloat "-Infinity", r)
  | None => scan_number s
  end end end end end end.

Definition hex_value (c : ascii) : option N :=
  if in_range 48 57 c then Some (N.of_nat (code c - 48))
  else if in_range 97 102 c then Some (N.of_nat (code c - 87))
  else if in_range 65 70 c then Some (N.of_nat (code c - 55))
  else None.

(** Four hexadecimal digits of a \u escape. *)
Definition hex4 (s : string) : option (N * string) :=
  match s with
  | String a (String b (String c (String d r))) =>
      match hex_value a, hex_value b, hex_value c, hex_value d with
      | Some x, Some y, Some z, Some w => Some (((x * 16 + y) * 16 + z) * 16 + w, r)%N
      | _, _, _, _ => None
      end
  | _ => None
  end.

Definition byte_of (n : N) : ascii := ascii_of_N n.

(** The UTF-8 form of a code point (a lone surrogate gets the three-byte
    form of its value). *)
Definition utf8 (cp : N) : string :=
  if (cp <? 128)%N then String (byte_of cp) ""
  else if (cp <? 2048)%N then
    String (byte_of (192 + cp / 64)) (String (byte_of (128 + cp mod 64)) "")
  else if (cp <? 65536)%N then
    String (byte_of (224 + cp / 4096))
      (String (byte_of (128 + (cp / 64) mod 64)) (String (byte_of (128 + cp mod 64)) ""))
  else
    String (byte_of (240 + cp / 262144))
      (String (byte_of (128 + (cp / 4096) mod 64))
         (String (byte_of (128 + (cp / 64) mod 64)) (String (byte_of (128 + cp mod 64)) ""))).

(** The one-letter escapes: quote, backslash, slash, b, f, n, r, t. *)
Definition simple_escape (c : ascii) : option ascii :=
  if is_char 34 c then Some c
  else if is_char 92 c then Some c
  else if is_char 47 c then Some c
  else if is_char 98 c then Some (ascii_of_nat 8)
  else if is_char 102 c then Some (ascii_of_nat 12)
  else if is_char 110 c then Some (ascii_of_nat 10)
  else if is_char 114 c then Some (ascii_of_nat 13)
  else if is_char 116 c then Some (ascii_of_nat 9)
  else None.

Definition prepend (p : string) (r : option (string * string)) : option (string * string) :=
  match r with
  | Some (body, rest) => Some (p +:+ body, rest)
  | None => None
  end.

(** The body of a string literal, read after its opening quote (strict
    mode: a control character ends the parse). *)
Fixpoint scan_string (fuel : nat) (s : string) : option (string * string) :=
  match fuel with
  | 0 => None
  | S f =>
      match s with
      | EmptyString => None
      | String c r =>
          if is_char 34 c then Some ("", r)
          else if is_char 92 c then
            match r with
            | EmptyString => None
            | String e r1 =>
                match simple_escape e with
                | Some x => prepend (String x "") (scan_string f r1)
                | None =>
                    if is_char 117 e then
                      match hex4 r1 with
                      | None => None
                      | Some (cu, r2) =>
                          if ((55296 <=? cu) && (cu <=? 56319))%N then
                            match strip_prefix "\u" r2 with
                            | Some r3 =>
                                match hex4 r3 with
                                | None => None
                                | Some (cu2, r4) =>
                                    if ((56320 <=? cu2) && (cu2 <=? 57343))%N
                                    then prepend
                                           (utf8 (65536 + (cu - 55296) * 1024 + (cu2 - 56320))%N)
                                           (scan_string f r4)
                                    else prepend (utf8 cu) (scan_string f r2)
                                end
                            | None => prepend (utf8 cu) (scan_string f r2)
                            end
                          else prepend (utf8 cu) (scan_string f r2)
                      end
                    else None
                end
            end
          else if code c <? 32 then None
          else prepend (String c "") (scan_string f r)
      end
  end.

Definition scan_string_lit (s : string) : option (string * string) :=
  scan_string (String.length s) s.

(** The recursive scanner.  [parse_value] reads one value at the head of
    [s]; [parse_elems] the elements of an array up to its bracket;
    [parse_members] the members of an object up to its brace, a later
    duplicate key overwriting the earlier one. *)
Fixpoint parse_value (fuel : nat) (s : string) {struct fuel} : option (JSON * string) :=
  match fuel with
  | 0 => None
  | S f =>
      match s with
      | EmptyString => None
      | String c r =>
          if is_char 34 c then
            match scan_string_lit r with
            | Some (str, r') => Some (JStr str, r')
            | None => None
            end
          else if is_char 123 c then
            match skip_ws r with
            | String c1 r2 =>
                if is_char 125 c1 then Some (JObj [], r2)
                else
                  match parse_members f (skip_ws r) [] with
                  | Some (d, r3) => Some (JObj d, r3)
                  | None => None
                  end
            | EmptyString => None
            end
          else if is_char 91 c then
            match skip_ws r with
            | String c1 r2 =>
                if is_char 93 c1 then Some (JArr [], r2)
                else
                  match parse_elems f (skip_ws r) with
                  | Some (l, r3) => Some (JArr l, r3)
                  | None => None
                  end
            | EmptyString => None
            end
          else scan_atom s
      end
  end
with parse_elems (fuel : nat) (s : string) {struct fuel} : option (list JSON * string) :=
  match fuel with
  | 0 => None
  | S f =>
      match parse_value f s with
      | None => None
      | Some (v, r) =>
          match skip_ws r with
          | String c r' =>
              if is_char 93 c then Some ([v], r')
              else if is_char 44 c then
                match parse_elems f (skip_ws r') with
                | Some (vs, r'') => Some (v :: vs, r'')
                | None => None
                end
              else None
          | EmptyString => None
          end
      end
  end
with parse_members (fuel : nat) (s : string) (acc : Dict JSON) {struct fuel}
    : option (Dict JSON * string) :=
  match fuel with
  | 0 => None
  | S f =>
      match s with
      | EmptyString => None
      | String q r =>
          if is_char 34 q then
            match scan_string_lit r with
            | None => None
            | Some (k, r1) =>
                match skip_ws r1 with
                | String c r2 =>
                    if is_char 58 c then
                      match parse_value f (skip_ws r2) with
                      | None => None
                      | Some (v, r3) =>
                          match skip_ws r3 with
                          | String c' r4 =>
                              if is_char 125 c' then Some (dict_set k v acc, r4)
                              else if is_char 44 c'
                              then parse_members f (skip_ws r4) (dict_set k v acc)
                              else None
                          | EmptyString => None
                          end
                      end
                    else None
                | EmptyString => None
                end
            end
          else None
      end
  end.

(** The UTF-8 byte order mark, which [json.loads] refuses. *)
Definition bom : string :=
  String (ascii_of_nat 239) (String (ascii_of_nat 187) (String (ascii_of_nat 191) "")).

(** [json.loads(s)]: one value, white space around it, nothing else.
    [None] stands for [json.JSONDecodeError]. *)
Definition json_loads (s : string) : option JSON :=
  if starts_with bom s then None
  else
    match parse_value (2 * String.length s + 2) (skip_ws s) with
    | Some (v, r) =>
        match skip_ws r with
        | EmptyString => Some v
        | String _ _ => None
        end
    | None => None
    end.

End Json.
Export Json.

(* ===================================================================== *)
(** ** Messages, the backend and the world *)
(* ===================================================================== *)

Definition nl : string := String (ascii_of_nat 10) EmptyString.

(** A role-tagged message of the backend.  A message without content
    reads as the empty string ([resp.get("content", "")]). *)
Record Message : Type := mkMessage { role : string; content : string }.

(** [[resp.get("content", "") for resp in responses
      if resp.get("role") == "assistant"]] *)
Definition assistant_contents (responses : list Message) : list string :=
  map content (filter (fun m => role m = "assistant") responses).

(** [extract_markdown], the same function in [describe_internal_function],
    [describe_external_function], [analyze_irp_memory_access] and
    [analyze_memory_flow]: the last assistant text, stripped. *)
Definition extract_markdown (responses : list Message) : Result string :=
  match last (assistant_contents responses) with
  | None => Err (RuntimeError "未收到助手输出")
  | Some raw => Ok (py_strip raw)
  end.

(** The analysis steps, one per module under [examples/]. *)
Inductive Step : Type :=
  | Discover
  | ResolveHandler
  | RenameIoControlCode
  | DefineDriverDispatch
  | ListSubfunctions
  | DescribeInternal
  | DescribeExternal
  | AnalyzeMemoryParam
  | AnalyzeIrpMemoryAccess.

(** What [build_messages] puts into the two messages of a conversation,
    the fixed wording apart. *)
Record Conversation : Type := mkConversation {
  conv_step : Step;
  conv_name : string;
  conv_address : string;
  conv_context : option string
}.

(** A cache entry, one line of the JSONL store. *)
Record DescriptionRecord : Type := mkRecord {
  rec_name : string;
  rec_markdown : string;
  rec_addresses : list string
}.

(** One record of [logs.txt] (the wall-clock [saved_at] is left out). *)
Record Transcript : Type := mkTranscript {
  t_target : Dict string;
  t_messages : Conversation;
  t_responses : list Message
}.

(** What an attribute of a streamed delta may hold. *)
Inductive Field : Type :=
  | FNone
  | FStr (s : string)
  | FInt (z : Z)
  | FBool (b : bool)
  | FList (items : list Field)
  | FDict (fields : list (string * Field)).

Record Delta : Type := mkDelta {
  reasoning_content : Field;
  thinking : Field;
  delta_content : Field
}.

(** A chunk of the reasoning stream: [choices] holds each choice's delta
    ([None] for a choice without one); [usage] is the printed form of the
    usage statistics, when the chunk carries them. *)
Record Chunk : Type := mkChunk {
  choices : list (option Delta);
  usage : option string
}.

(** Everything outside the program that it reads or writes.
    - [oracle n c]: what the backend's [run] ends with when [c] is the
      conversation submitted after [n] earlier ones: the final list of
      messages, or [None] when it raises.
    - [requests]: the conversations submitted so far, oldest first.
    - [cache_file]: the lines of the cache file ([None]: a blank line or
      one that is not JSON); a missing file has no line.
    - [log_file]: the records appended to [logs.txt].
    - [transcript_sink]: the list object [process_major_function] hands
      to the controlled-access step.
    - [stdout], [slept]: what was printed and the [time.sleep] calls.
    - [deep_backend]: the secondary reasoning backend; [None] without a
      credential (or without its client library); applied to the
      transcripts and code excerpts of the prompt it gives the chunks it
      streams, or [None] when the request itself fails.
    - [report_files]: the reports written. *)
Record World : Type := mkWorld {
  oracle : nat -> Conversation -> option (list Message);
  requests : list Conversation;
  cache_file : list (option DescriptionRecord);
  log_file : list Transcript;
  transcript_sink : list Transcript;
  stdout : list string;
  slept : list nat;
  deep_backend : option (list Transcript -> list string -> option (list Chunk));
  report_files : list string
}.

Definition set_requests (w : World) (r : list Conversation) : World :=
  mkWorld (oracle w) r (cache_file w) (log_file w) (transcript_sink w)
          (stdout w) (slept w) (deep_backend w) (report_files w).

Definition set_cache_file (w : World) (c : list (option DescriptionRecord)) : World :=
  mkWorld (oracle w) (requests w) c (log_file w) (transcript_sink w)
          (stdout w) (slept w) (deep_backend w) (report_files w).

Definition set_log_file (w : World) (l : list Transcript) : World :=
  mkWorld (oracle w) (requests w) (cache_file w) l (transcript_sink w)
          (stdout w) (slept w) (deep_backend w) (report_files w).

Definition set_transcript_sink (w : World) (l : list Transcript) : World :=
  mkWorld (oracle w) (requests w) (cache_file w) (log_file w) l
          (stdout w) (slept w) (deep_backend w) (report_files w).

Definition set_stdout (w : World) (o : list string) : World :=
  mkWorld (oracle w) (requests w) (cache_file w) (log_file w) (transcript_sink w)
          o (slept w) (deep_backend w) (report_files w).

Definition set_slept (w : World) (s : list nat) : World :=
  mkWorld (oracle w) (requests w) (cache_file w) (log_file w) (transcript_sink w)
          (stdout w) s (deep_backend w) (report_files w).

Definition set_report_files (w : World) (r : list string) : World :=
  mkWorld (oracle w) (requests w) (cache_file w) (log_file w) (transcript_sink w)
          (stdout w) (slept w) (deep_backend w) r.

(** A computation that may raise and may change the world. *)
Definition Action (A : Type) : Type := World -> Result A * World.

Definition ret {A : Type} (a : A) : Action A := fun w => (Ok a, w).

Definition raise {A : Type} (e : Exn) : Action A := fun w => (Err e, w).

Definition bind {A B : Type} (m : Action A) (k : A -> Action B) : Action B :=
  fun w =>
    match m w with
    | (Ok a, w') => k a w'
    | (Err e, w') => (Err e, w')
    end.

(** [try: m  except Exception: h] *)
Definition catch {A : Type} (m : Action A) (h : Exn -> Action A) : Action A :=
  fun w =>
    match m w with
    | (Ok a, w') => (Ok a, w')
    | (Err e, w') => h e w'
    end.

Definition lift {A : Type} (r : Result A) : Action A := fun w => (r, w).

Notation "'do' x <- m ; k" := (bind m (fun x => k))
  (at level 10, x name, m at level 100, k at level 200).
Notation "'do' ' p <- m ; k" := (bind m (fun x => match x with p => k end))
  (at level 10, p pattern, m at level 100, k at level 200).
Notation "'run' m ; k" := (bind m (fun _ => k))
  (at level 10, m at level 100, k at level 200).

(** [for ... in bot.run(messages=messages): pass]: the conversation goes
    to the backend, which answers or raises. *)
Definition bot_run (c : Conversation) : Action (list Message) :=
  fun w =>
    (match oracle w (length (requests w)) c with
     | Some final_responses => Ok final_responses
     | None => Err (BackendError "run")
     end,
     set_requests w (requests w ++ [c])).

(** [print(text)] with the line end included in [text]. *)
Definition print (text : string) : Action unit :=
  fun w => (Ok tt, set_stdout w (stdout w ++ [text])).

(** [time.sleep(seconds)] *)
Definition sleep (seconds : nat) : Action unit :=
  fun w => (Ok tt, set_slept w (slept w ++ [seconds])).

(** [d[k]] *)
Definition dict_index (k : string) (d : Dict string) : Result string :=
  match dict_get k d with
  | Some v => Ok v
  | None => Err (KeyError k)
  end.

(** [{"address": address, "func_name": name}] *)
Definition target_of (address name : string) : Dict string :=
  [("address", address); ("func_name", name)].

(** [{"address": address, "name": name}] *)
Definition entry_of (address name : string) : Dict string :=
  [("address", address); ("name", name)].

(** The steps hand their JSON results on as [Dict[str, str]].  A result
    outside that type (a member that is no string, an element that is no
    object) is reported as a [TypeError] where it is produced. *)
Fixpoint as_str_dict (d : Dict JSON) : option (Dict string) :=
  match d with
  | [] => Some []
  | (k, JStr s) :: d' =>
      match as_str_dict d' with
      | Some r => Some ((k, s) :: r)
      | None => None
      end
  | _ :: _ => None
  end.

Fixpoint as_str_dicts (l : list JSON) : option (list (Dict string)) :=
  match l with
  | [] => Some []
  | JObj d :: l' =>
      match as_str_dict d, as_str_dicts l' with
      | Some e, Some r => Some (e :: r)
      | _, _ => None
      end
  | _ :: _ => None
  end.

Definition typed {A : Type} (o : option A) : Result A :=
  match o with
  | Some a => Ok a
  | None => Err (TypeError "not Dict[str, str]")
  end.

(** Decimal text of a natural number, as an f-string prints it. *)
Definition nat_text (n : nat) : string :=
  NilZero.string_of_uint (Nat.to_uint n).

Definition int_text (z : Z) : string :=
  NilZero.string_of_int (Z.to_int z).

Definition mem_str (x : string) (l : list string) : bool :=
  existsb (String.eqb x) l.

(* ===================================================================== *)
(** ** examples/find_iocreatedevice_refs.py *)
(* ===================================================================== *)

Module find_iocreatedevice_refs.

Definition build_messages : Conversation := mkConversation Discover "" "" None.

(** The tag "json" of a fence, letter case ignored; under IGNORECASE the
    long s (U+017F, bytes 197 191) matches [s] too. *)
Definition strip_json_tag (s : string) : option string :=
  match s with
  | String j r =>
      if is_char 106 j || is_char 74 j then
        let after_s :=
          match r with
          | String a r1 =>
              if is_char 115 a || is_char 83 a then Some r1
              else
                match r1 with
                | String b r2 =>
                    if is_char 197 a && is_char 191 b then Some r2 else None
                | EmptyString => None
                end
          | EmptyString => None
          end in
        match after_s with
        | Some (String o (String n r3)) =>
            if (is_char 111 o || is_char 79 o) && (is_char 110 n || is_char 78 n)
            then Some r3 else None
        | _ => None
        end
      else None
  | EmptyString => None
  end.

(** The lazy body of a block: the text up to the first closing bracket
    that white space and a fence follow, and what follows that fence. *)
Fixpoint find_close (s : string) : option (string * string) :=
  match s with
  | EmptyString => None
  | String c s' =>
      if is_char 93 c then
        match strip_prefix "```" (py_lstrip s') with
        | Some rest => Some ("", rest)
        | None => prepend (String c "") (find_close s')
        end
      else prepend (String c "") (find_close s')
  end.

(** A match of [JSON_BLOCK_RE] that starts at the head of [s]: a fence,
    the optional tag, white space, then the bracketed group.  Gives the
    group and the text after the match. *)
Definition json_block_at (s : string) : option (string * string) :=
  match strip_prefix "```" s with
  | None => None
  | Some r =>
      let r1 := match strip_json_tag r with Some x => x | None => r end in
      match py_lstrip r1 with
      | String c body =>
          if is_char 91 c then
            match find_close body with
            | Some (inner, rest) => Some ("[" +:+ inner +:+ "]", rest)
            | None => None
            end
          else None
      | EmptyString => None
      end
  end.

(** [JSON_BLOCK_RE.findall]: the groups of the matches found from left
    to right, each search resuming where the last match ended. *)
Fixpoint findall_from (fuel : nat) (s : string) : list string :=
  match fuel with
  | 0 => []
  | S f =>
      match s with
      | EmptyString => []
      | String _ s' =>
          match json_block_at s with
          | Some (g, rest) => g :: findall_from f rest
          | None => findall_from f s'
          end
      end
  end.

Definition JSON_BLOCK_RE_findall (raw : string) : list string :=
  findall_from (String.length raw) raw.

Definition _load_json_array (text : string) : option (list JSON) :=
  match json_loads text with
  | Some (JArr l) => Some l
  | _ => None
  end.

Fixpoint first_block_array (blocks : list string) : option (list JSON) :=
  match blocks with
  | [] => None
  | b :: bs =>
      match _load_json_array b with
      | Some l => Some l
      | None => first_block_array bs
      end
  end.

(** [raw[first : last + 1]] when both brackets are found and
    [last > first]. *)
Definition bracket_slice (raw : string) : option string :=
  match py_find "["%char raw, py_rfind "]"%char raw with
  | Some first, Some last =>
      if first <? last then Some (slice_incl first last raw) else None
  | _, _ => None
  end.

(** The three attempts on one assistant text. *)
Definition parse_reply (raw : string) : option (list JSON) :=
  match _load_json_array raw with
  | Some l => Some l
  | None =>
      match first_block_array (JSON_BLOCK_RE_findall raw) with
      | Some l => Some l
      | None =>
          match bracket_slice raw with
          | Some text => _load_json_array text
          | None => None
          end
      end
  end.

Fixpoint extract_json_result_loop (raws : list string) : Result (list JSON) :=
  match raws with
  | [] => Err (RuntimeError "未能从助手响应中解析到 JSON 列表")
  | raw :: rest =>
      let raw := py_strip raw in
      if negb (nonempty raw) then extract_json_result_loop rest
      else
        match parse_reply raw with
        | Some l => Ok l
        | None => extract_json_result_loop rest
        end
  end.

Definition extract_json_result (responses : list Message) : Result (list JSON) :=
  extract_json_result_loop (rev (assistant_contents responses)).

Definition FAILURE_BANNER : string :=
  nl +:+ "[!] 解析 IoCreateDevice 引用 JSON 失败，打印助手响应以便排查：" +:+ nl.

(** [f"[role={role}] {content}"], as printed. *)
Definition response_line (resp : Message) : string :=
  "[role=" +:+ role resp +:+ "] " +:+ content resp +:+ nl.

(** [f"[!] {wait_sec}s 后重试（剩余 {2 - attempt} 次）..."], as printed. *)
Definition retry_notice (attempt : nat) : string :=
  "[!] " +:+ nat_text 30 +:+ "s 后重试（剩余 " +:+ nat_text (2 - attempt) +:+ " 次）..." +:+ nl.

(** The diagnostic print of a failed attempt: every message with a
    non-empty content. *)
Fixpoint print_responses (responses : list Message) : Action unit :=
  match responses with
  | [] => ret tt
  | resp :: rest =>
      run (if nonempty (content resp) then print (response_line resp) else ret tt);
      print_responses rest
  end.

(** The body of [for attempt in range(3)], [remaining] iterations being
    left.  Only the [RuntimeError] of the extractor is handled; falling
    out of the loop would return [None], which no caller can use. *)
Fixpoint attempts (remaining attempt : nat) : Action (list JSON) :=
  match remaining with
  | 0 => raise (TypeError "None")
  | S r =>
      do final_responses <- bot_run build_messages;
      match extract_json_result final_responses with
      | Ok l => ret l
      | Err (RuntimeError msg) =>
          run print FAILURE_BANNER;
          run print_responses final_responses;
          if 2 <=? attempt then raise (RuntimeError msg)
          else
            run print (retry_notice attempt);
            run sleep 30;
            attempts r (S attempt)
      | Err e => raise e
      end
  end.

Definition find_iocreatedevice_refs : Action (list JSON) := attempts 3 0.

End find_iocreatedevice_refs.

(* ===================================================================== *)
(** ** examples/analyze_major_function.py *)
(* ===================================================================== *)

Module analyze_major_function.

Definition build_messages (target : Dict string) : Result Conversation :=
  match dict_index "func_name" target with
  | Err e => Err e
  | Ok func_name =>
      match dict_index "address" target with
      | Err e => Err e
      | Ok address => Ok (mkConversation ResolveHandler func_name address None)
      end
  end.

Fixpoint extract_json_object_loop (raws : list string) : Result (Dict JSON) :=
  match raws with
  | [] => Err (RuntimeError "未能从助手响应中解析到 JSON 对象")
  | raw :: rest =>
      match json_loads raw with
      | Some (JObj d) =>
          if has_key "address" d && has_key "func_name" d then Ok d
          else Err (RuntimeError "JSON 对象缺少 address 或 func_name 字段")
      | _ => extract_json_object_loop rest
      end
  end.

Definition extract_json_object (responses : list Message) : Result (Dict JSON) :=
  extract_json_object_loop (rev (assistant_contents responses)).

(** One conversation, one extraction: no retry. *)
Definition analyze_major_function_target (target : Dict string) : Action (Dict string) :=
  if negb (has_key "address" target) || negb (has_key "func_name" target)
  then raise (ValueError "target 字典必须包含 address 与 func_name 键")
  else
    do messages <- lift (build_messages target);
    do final_responses <- bot_run messages;
    do parsed <- lift (extract_json_object final_responses);
    lift (typed (as_str_dict parsed)).

End analyze_major_function.

(* ===================================================================== *)
(** ** examples/rename_iocontrol_code.py *)
(* ===================================================================== *)

Module rename_iocontrol_code.

Definition build_messages (target : Dict string) : Result Conversation :=
  match dict_index "func_name" target with
  | Err e => Err e
  | Ok func_name =>
      match dict_index "address" target with
      | Err e => Err e
      | Ok address => Ok (mkConversation RenameIoControlCode func_name address None)
      end
  end.

Definition is_io_control_code (v : option JSON) : bool :=
  match v with
  | Some (JStr s) => String.eqb s "IoControlCode"
  | _ => false
  end.

Fixpoint extract_json_result_loop (raws : list string) : Result (Dict JSON) :=
  match raws with
  | [] => Err (RuntimeError "未能从助手响应中解析到 JSON 对象")
  | raw :: rest =>
      match json_loads raw with
      | Some (JObj d) =>
          if has_key "address" d && has_key "func_name" d && has_key "old_name" d
             && is_io_control_code (dict_get "new_name" d)
          then Ok d
          else Err (RuntimeError "JSON 对象缺少 address/func_name/old_name/new_name 字段")
      | _ => extract_json_result_loop rest
      end
  end.

Definition extract_json_result (responses : list Message) : Result (Dict JSON) :=
  extract_json_result_loop (rev (assistant_contents responses)).

Definition rename_io_control_code (target : Dict string) : Action (Dict JSON) :=
  if negb (has_key "address" target) || negb (has_key "func_name" target)
  then raise (ValueError "target 字典必须包含 address 与 func_name")
  else
    do messages <- lift (build_messages target);
    do final_responses <- bot_run messages;
    lift (extract_json_result final_responses).

End rename_iocontrol_code.

(* ===================================================================== *)
(** ** examples/define_driver_dispatch.py *)
(* ===================================================================== *)

Module define_driver_dispatch.

Definition build_messages (target : Dict string) : Result Conversation :=
  match dict_index "func_name" target with
  | Err e => Err e
  | Ok func_name =>
      match dict_index "address" target with
      | Err e => Err e
      | Ok address => Ok (mkConversation DefineDriverDispatch func_name address None)
      end
  end.

Fixpoint extract_json_result_loop (raws : list string) : Result (Dict JSON) :=
  match raws with
  | [] => Err (RuntimeError "未从助手响应中获取到 JSON 结果")
  | raw :: rest =>
      let raw := py_strip raw in
      if negb (nonempty raw) then extract_json_result_loop rest
      else
        match json_loads raw with
        | Some (JObj d) => Ok d
        | _ => extract_json_result_loop rest
        end
  end.

Definition extract_json_result (responses : list Message) : Result (Dict JSON) :=
  extract_json_result_loop (rev (assistant_contents responses)).

Definition define_driver_dispatch (target : Dict string) : Action (Dict JSON) :=
  if negb (has_key "address" target) || negb (has_key "func_name" target)
  then raise (ValueError "target 必须包含 address 与 func_name 键")
  else
    do messages <- lift (build_messages target);
    do final_responses <- bot_run messages;
    lift (extract_json_result final_responses).

End define_driver_dispatch.

(* ===================================================================== *)
(** ** examples/list_subfunctions.py *)
(* ===================================================================== *)

Module list_subfunctions.

Definition build_messages (target : Dict string) : Result Conversation :=
  match dict_index "func_name" target with
  | Err e => Err e
  | Ok func_name =>
      match dict_index "address" target with
      | Err e => Err e
      | Ok address => Ok (mkConversation ListSubfunctions func_name address None)
      end
  end.

Fixpoint extract_json_array_loop (raws : list string) : Result (list JSON) :=
  match raws with
  | [] => Err (RuntimeError "未能从助手响应中解析到 JSON 数组")
  | raw :: rest =>
      match json_loads raw with
      | Some (JArr l) => Ok l
      | _ => extract_json_array_loop rest
      end
  end.

Definition extract_json_array (responses : list Message) : Result (list JSON) :=
  extract_json_array_loop (rev (assistant_contents responses)).

Definition list_subfunctions (target : Dict string) : Action (list (Dict string)) :=
  if negb (has_key "address" target) || negb (has_key "func_name" target)
  then raise (ValueError "target 字典必须包含 address 与 func_name 键")
  else
    do messages <- lift (build_messages target);
    do final_responses <- bot_run messages;
    do parsed <- lift (extract_json_array final_responses);
    lift (typed (as_str_dicts parsed)).

End list_subfunctions.

(* ===================================================================== *)
(** ** examples/describe_internal_function.py *)
(* ===================================================================== *)

Module describe_internal_function.

Definition build_messages (entry : Dict string) : Result Conversation :=
  match dict_index "name" entry with
  | Err e => Err e
  | Ok name =>
      match dict_index "address" entry with
      | Err e => Err e
      | Ok address => Ok (mkConversation DescribeInternal name address None)
      end
  end.

Definition describe_internal_function (entry : Dict string) : Action string :=
  if negb (has_key "address" entry) || negb (has_key "name" entry)
  then raise (ValueError "entry 必须包含 address 与 name 字段")
  else
    do messages <- lift (build_messages entry);
    do final_responses <- bot_run messages;
    lift (extract_markdown final_responses).

End describe_internal_function.

(* ===================================================================== *)
(** ** examples/describe_external_function.py *)
(* ===================================================================== *)

Module describe_external_function.

Definition build_messages (entry : Dict string) : Result Conversation :=
  match dict_index "name" entry with
  | Err e => Err e
  | Ok name =>
      match dict_index "address" entry with
      | Err e => Err e
      | Ok address => Ok (mkConversation DescribeExternal name address None)
      end
  end.

(** The loop of [load_cache] over the lines of the file: a blank or
    corrupt line is skipped, and so is a record whose name is empty. *)
Fixpoint load_lines (lines : list (option DescriptionRecord))
    (cache : Dict DescriptionRecord) : Dict DescriptionRecord :=
  match lines with
  | [] => cache
  | None :: rest => load_lines rest cache
  | Some record :: rest =>
      if negb (nonempty (rec_name record)) then load_lines rest cache
      else load_lines rest (dict_set (py_lower (rec_name record)) record cache)
  end.

Definition load_cache : Action (Dict DescriptionRecord) :=
  fun w => (Ok (load_lines (cache_file w) []), w).

(** The whole file is rewritten, one record per line. *)
Definition write_cache (cache : Dict DescriptionRecord) : Action unit :=
  fun w => (Ok tt, set_cache_file w (map (fun kv => Some (snd kv)) cache)).

Definition cache_lookup (cache : Dict DescriptionRecord) (name : string)
    : option DescriptionRecord :=
  dict_get (py_lower name) cache.

Definition cache_update (cache : Dict DescriptionRecord)
    (name markdown address : string) : Action DescriptionRecord :=
  let key := py_lower name in
  let record :=
    match dict_get key cache with
    | Some r => r
    | None => mkRecord name markdown []
    end in
  let addresses := rec_addresses record in
  let addresses :=
    if negb (mem_str address addresses) then addresses ++ [address] else addresses in
  let record := mkRecord (rec_name record) markdown addresses in
  run write_cache (dict_set key record cache);
  ret record.

Definition describe_external_function (entry : Dict string) : Action string :=
  if negb (has_key "address" entry) || negb (has_key "name" entry)
  then raise (ValueError "entry 必须包含 address 与 name 字段")
  else
    do cache <- load_cache;
    do name <- lift (dict_index "name" entry);
    match cache_lookup cache name with
    | Some cached =>
        do address <- lift (dict_index "address" entry);
        run (if negb (mem_str address (rec_addresses cached))
             then (do _ <- cache_update cache name (rec_markdown cached) address; ret tt)
             else ret tt);
        ret (rec_markdown cached)
    | None =>
        do messages <- lift (build_messages entry);
        do final_responses <- bot_run messages;
        do markdown <- lift (extract_markdown final_responses);
        do address <- lift (dict_index "address" entry);
        do _ <- cache_update cache name markdown address;
        ret markdown
    end.

End describe_external_function.

(* ===================================================================== *)
(** ** examples/analyze_memory_param.py *)
(* ===================================================================== *)

Module analyze_memory_param.

Definition build_messages (target : Dict string) : Result Conversation :=
  match dict_index "func_name" target with
  | Err e => Err e
  | Ok func_name =>
      match dict_index "address" target with
      | Err e => Err e
      | Ok address => Ok (mkConversation AnalyzeMemoryParam func_name address None)
      end
  end.

Fixpoint extract_json_loop (raws : list string) : Result (Dict JSON) :=
  match raws with
  | [] => Err (RuntimeError "未能解析到 JSON 对象")
  | raw :: rest =>
      match json_loads raw with
      | Some (JObj d) => Ok d
      | _ => extract_json_loop rest
      end
  end.

Definition extract_json (responses : list Message) : Result (Dict JSON) :=
  extract_json_loop (rev (assistant_contents responses)).

Definition analyze_memory_param (target : Dict string) : Action (Dict JSON) :=
  if negb (has_key "address" target) || negb (has_key "func_name" target)
  then raise (ValueError "target 必须包含 address 与 func_name 键")
  else
    do messages <- lift (build_messages target);
    do final_responses <- bot_run messages;
    lift (extract_json final_responses).

(** [format_markdown] reads its argument as a MemoryParameterResult.  A
    member of another JSON type than that record gives it is reported
    as a [TypeError]. *)
Definition ill_typed {A : Type} : Result A := Err (TypeError "MemoryParameterResult").

(** [d.get(k, default)] for a text member. *)
Definition text_member (k default : string) (d : Dict JSON) : Result string :=
  match dict_get k d with
  | None => Ok default
  | Some (JStr s) => Ok s
  | Some _ => ill_typed
  end.

(** [s.replace("\n", " ")] *)
Fixpoint one_line (s : string) : string :=
  match s with
  | EmptyString => EmptyString
  | String c s' => String (if is_char 10 c then " "%char else c) (one_line s')
  end.

Definition table_row (item : JSON) : Result string :=
  match item with
  | JObj d =>
      match text_member "param" "" d, text_member "operation" "" d,
            text_member "description" "" d, text_member "evidence" "" d with
      | Ok param, Ok operation, Ok description, Ok evidence =>
          Ok ("| " +:+ param +:+ " | " +:+ operation +:+ " | " +:+ one_line description
              +:+ " | `" +:+ one_line evidence +:+ "` |")
      | _, _, _, _ => ill_typed
      end
  | _ => ill_typed
  end.

Fixpoint table_rows (items : list JSON) : Result (list string) :=
  match items with
  | [] => Ok []
  | item :: rest =>
      match table_row item, table_rows rest with
      | Ok r, Ok rs => Ok (r :: rs)
      | _, _ => ill_typed
      end
  end.

Definition format_markdown (result : Dict JSON) : Result string :=
  let func :=
    match dict_get "function" result with
    | None => Ok []
    | Some (JObj d) => Ok d
    | Some _ => ill_typed
    end in
  let has_param :=
    match dict_get "has_memory_address_param" result with
    | None => Ok false
    | Some (JBool b) => Ok b
    | Some _ => ill_typed
    end in
  let mem_params :=
    match dict_get "memory_parameters" result with
    | None | Some JNull => Ok []
    | Some (JArr items) => Ok items
    | Some _ => ill_typed
    end in
  let notes :=
    match dict_get "notes" result with
    | None | Some JNull => Ok ""
    | Some (JStr s) => Ok s
    | Some _ => ill_typed
    end in
  match func, has_param, mem_params, notes with
  | Ok func, Ok has_param, Ok mem_params, Ok notes =>
      match text_member "name" "unknown" func, text_member "address" "N/A" func,
            table_rows mem_params with
      | Ok func_name, Ok func_addr, Ok rows =>
          let head :=
            [ "# " +:+ func_name +:+ " 内存参数分析";
              "";
              "- 地址：`" +:+ func_addr +:+ "`";
              "- 存在可指定内存操作地址的参数：" +:+ (if has_param then "是" else "否") ] in
          let body :=
            match mem_params with
            | _ :: _ =>
                [ ""; "## 关联参数"; "";
                  "| 参数 | 操作类型 | 描述 | 证据 |";
                  "| --- | --- | --- | --- |" ] ++ rows
            | [] =>
                [ ""; "## 关联参数"; "";
                  "未检测到参数直接控制内存读/写/复制操作的地址。" ]
            end in
          let tail := if nonempty notes then [ ""; "## 备注"; ""; notes ] else [] in
          Ok (py_strip (join nl (head ++ body ++ tail)))
      | _, _, _ => ill_typed
      end
  | _, _, _, _ => ill_typed
  end.

Definition analyze_memory_param_markdown (target : Dict string) : Action string :=
  do result <- analyze_memory_param target;
  lift (format_markdown result).

End analyze_memory_param.

(* ===================================================================== *)
(** ** examples/analyze_irp_memory_access.py *)
(* ===================================================================== *)

Module analyze_irp_memory_access.

(** The context section enters the prompt only for a context that is
    given and not empty. *)
Definition build_messages (target : Dict string) (context_markdown : option string)
    : Result Conversation :=
  match dict_index "func_name" target with
  | Err e => Err e
  | Ok func_name =>
      match dict_index "address" target with
      | Err e => Err e
      | Ok address =>
          Ok (mkConversation AnalyzeIrpMemoryAccess func_name address
                (match context_markdown with
                 | Some c => if nonempty c then Some c else None
                 | None => None
                 end))
      end
  end.

(** Appends the record to [logs.txt] and returns it. *)
Definition save_transcript (target : Dict string) (messages : Conversation)
    (responses : list Message) : Action Transcript :=
  fun w =>
    let payload := mkTranscript target messages responses in
    (Ok payload, set_log_file w (log_file w ++ [payload])).

(** [with_sink]: whether a [transcript_sink] list was passed. *)
Definition analyze_irp_memory_access (target : Dict string)
    (context_markdown : option string) (with_sink : bool) : Action string :=
  if negb (has_key "address" target) || negb (has_key "func_name" target)
  then raise (ValueError "target 必须包含 address 与 func_name 键")
  else
    do messages <- lift (build_messages target context_markdown);
    do final_responses <- bot_run messages;
    do payload <- save_transcript target messages final_responses;
    run (fun w =>
           (Ok tt, if with_sink
                   then set_transcript_sink w (transcript_sink w ++ [payload])
                   else w));
    lift (extract_markdown final_responses).

End analyze_irp_memory_access.

(* ===================================================================== *)
(** ** pipeline.py *)
(* ===================================================================== *)

Module pipeline.

Definition MEMORY_MARKERS : list string := ["# MEM #"; "# MAP #"].

(** A value read with [d.get(k)], as an f-string prints it. *)
Definition fmt_get (k : string) (d : Dict string) : string :=
  match dict_get k d with
  | Some v => v
  | None => "None"
  end.

(** [d.get(k, default)] *)
Definition get_default (k default : string) (d : Dict string) : string :=
  match dict_get k d with
  | Some v => v
  | None => default
  end.

(** [not name or not addr], for the values [entry.get] returned. *)
Definition falsy (v : option string) : bool :=
  match v with
  | Some s => negb (nonempty s)
  | None => true
  end.

(** The loop of [dedupe_functions]: [seen] is the set of keys met so far,
    [deduped] the list built so far. *)
Fixpoint dedupe_loop (name_key addr_key : string) (entries : list (Dict string))
    (seen : gset (string * string)) (deduped : list (Dict string))
    : list (Dict string) :=
  match entries with
  | [] => deduped
  | entry :: rest =>
      let name := dict_get name_key entry in
      let addr := dict_get addr_key entry in
      if falsy name || falsy addr then dedupe_loop name_key addr_key rest seen deduped
      else
        let key := (py_lower (default "" name), py_lower (default "" addr)) in
        if bool_decide (key ∈ seen) then dedupe_loop name_key addr_key rest seen deduped
        else dedupe_loop name_key addr_key rest ({[ key ]} ∪ seen) (deduped ++ [entry])
  end.

Definition dedupe_functions (entries : list (Dict string))
    (name_key addr_key : string) : list (Dict string) :=
  dedupe_loop name_key addr_key entries ∅ [].

(** [any(marker in text for marker in MEMORY_MARKERS)] *)
Definition has_memory_marker (text : string) : bool :=
  existsb (fun marker => contains marker text) MEMORY_MARKERS.

Definition is_external (child : Dict string) : bool :=
  match dict_get "type" child with
  | Some t => String.eqb t "external"
  | None => false
  end.

Definition describe_child (child : Dict string) : Action (string * string) :=
  if is_external child then
    do address <- lift (dict_index "address" child);
    do name <- lift (dict_index "name" child);
    do desc <- describe_external_function.describe_external_function (entry_of address name);
    ret (desc, "")
  else
    do address <- lift (dict_index "address" child);
    do name <- lift (dict_index "name" child);
    do desc <- describe_internal_function.describe_internal_function (entry_of address name);
    if has_memory_marker desc then
      do address <- lift (dict_index "address" child);
      do name <- lift (dict_index "name" child);
      do mem_md <- analyze_memory_param.analyze_memory_param_markdown (target_of address name);
      ret (desc +:+ nl +:+ nl +:+ "---" +:+ nl +:+ mem_md, mem_md)
    else ret (desc, "").

Definition format_child_section (child : Dict string) (description : string) : string :=
  let name := get_default "name" "unknown" child in
  let addr := get_default "address" "N/A" child in
  let func_type := get_default "type" "internal" child in
  let header := "#### " +:+ name +:+ " (" +:+ func_type +:+ ")" +:+ nl
                +:+ "- 地址：`" +:+ addr +:+ "`" in
  header +:+ nl +:+ nl +:+ py_strip description.

Definition PARENT_MEMORY_FAILED : string := "（analyze_memory_param 运行失败）".
Definition IRP_FAILED : string := "（IRP 控制内存访问分析失败）".
Definition NO_CHILD_DESCRIPTIONS : string := "（未获取到子函数描述）".

Definition analyze_parent_memory (target : Dict string) : Action string :=
  catch (analyze_memory_param.analyze_memory_param_markdown target)
        (fun _ => ret PARENT_MEMORY_FAILED).

Definition analyze_irp_memory_section (target : Dict string)
    (context : option string) : Action string :=
  catch (analyze_irp_memory_access.analyze_irp_memory_access target context true)
        (fun _ => ret IRP_FAILED).

(** The loop over the children in [process_major_function]: a child whose
    description raises is skipped. *)
Fixpoint describe_children (children : list (Dict string))
    (child_sections child_mem_codes : list string) : Action (list string * list string) :=
  match children with
  | [] => ret (child_sections, child_mem_codes)
  | child :: rest =>
      do described <- catch (do r <- describe_child child; ret (Some r))
                            (fun _ => ret None);
      match described with
      | None => describe_children rest child_sections child_mem_codes
      | Some (desc, mem_code) =>
          describe_children rest
            (child_sections ++ [format_child_section child desc])
            (if nonempty mem_code
             then child_mem_codes
                    ++ ["### " +:+ fmt_get "name" child +:+ " 可控内存参数" +:+ nl
                        +:+ py_strip mem_code]
             else child_mem_codes)
      end
  end.

(** [child_block] *)
Definition child_block_of (child_sections : list string) : string :=
  match child_sections with
  | [] => NO_CHILD_DESCRIPTIONS
  | _ :: _ => join (nl +:+ nl) child_sections
  end.

(** [combined_context] *)
Definition combined_context_of (child_block parent_mem_md : string)
    (child_mem_codes : list string) : string :=
  let parts := [ "### 子函数描述" +:+ nl; child_block;
                 nl +:+ "### 函数内存参数分析" +:+ nl; parent_mem_md ] in
  let combined := py_strip (join nl (filter (fun part => part <> "") parts)) in
  match child_mem_codes with
  | [] => combined
  | _ :: _ =>
      combined +:+ nl +:+ nl +:+ "### 可控内存参数代码" +:+ nl
      +:+ join (nl +:+ nl) child_mem_codes
  end.

(** ["\n".join(report_lines).strip()] *)
Definition report_of (caller handler : Dict string)
    (child_block parent_mem_md irp_md : string) : string :=
  py_strip (join nl
    [ "### Caller: " +:+ fmt_get "func_name" caller +:+ " @ `"
        +:+ fmt_get "address" caller +:+ "`";
      "";
      "**MajorFunction[14] 处理函数：** " +:+ fmt_get "func_name" handler +:+ " @ `"
        +:+ fmt_get "address" handler +:+ "`";
      "";
      "#### 子函数描述";
      child_block;
      "";
      "#### 函数内存参数分析";
      parent_mem_md;
      "";
      "#### IRP 控制内存访问";
      irp_md ]).

Definition new_transcript_sink : Action unit :=
  fun w => (Ok tt, set_transcript_sink w []).

Definition read_transcript_sink : Action (list Transcript) :=
  fun w => (Ok (transcript_sink w), w).

Definition process_major_function (caller handler : Dict string)
    : Action (string * list Transcript * list string) :=
  do h_address <- lift (dict_index "address" handler);
  do h_name <- lift (dict_index "func_name" handler);
  let handler_target := target_of h_address h_name in
  do children <- catch (list_subfunctions.list_subfunctions handler_target)
                       (fun _ => ret []);
  do '(child_sections, child_mem_codes) <- describe_children children [] [];
  let child_block := child_block_of child_sections in
  do parent_mem_md <- analyze_parent_memory handler_target;
  let combined_context := combined_context_of child_block parent_mem_md child_mem_codes in
  run new_transcript_sink;
  do irp_md <- analyze_irp_memory_section handler_target (Some combined_context);
  do irp_transcripts <- read_transcript_sink;
  ret (report_of caller handler child_block parent_mem_md irp_md,
       irp_transcripts, child_mem_codes).

(** Truthiness of a delta attribute. *)
Definition truthy (f : Field) : bool :=
  match f with
  | FNone => false
  | FStr s => nonempty s
  | FInt z => negb (z =? 0)%Z
  | FBool b => b
  | FList l => match l with [] => false | _ :: _ => true end
  | FDict d => match d with [] => false | _ :: _ => true end
  end.

(** [a or b] *)
Definition py_or (a b : Field) : Field := if truthy a then a else b.

(** [d.get(k)] *)
Definition field_get (k : string) (d : list (string * Field)) : Field :=
  match dict_get k d with
  | Some v => v
  | None => FNone
  end.

Definition hex_digit (n : nat) : ascii :=
  if n <? 10 then ascii_of_nat (48 + n) else ascii_of_nat (87 + n).

(** One character inside a JSON string literal ([ensure_ascii=False]). *)
Definition escape_char (c : ascii) : string :=
  if is_char 34 c then "\" +:+ dq
  else if is_char 92 c then "\\"
  else if is_char 10 c then "\n"
  else if is_char 13 c then "\r"
  else if is_char 9 c then "\t"
  else if is_char 8 c then "\b"
  else if is_char 12 c then "\f"
  else if code c <? 32 then
    "\u00" +:+ String (hex_digit (code c / 16)) (String (hex_digit (code c mod 16)) "")
  else String c "".

Fixpoint escape_string (s : string) : string :=
  match s with
  | EmptyString => EmptyString
  | String c s' => escape_char c +:+ escape_string s'
  end.

Definition quoted (s : string) : string := dq +:+ escape_string s +:+ dq.

(** [json.dumps(field, ensure_ascii=False)] *)
Fixpoint json_dumps (f : Field) : string :=
  match f with
  | FNone => "null"
  | FStr s => quoted s
  | FInt z => int_text z
  | FBool b => if b then "true" else "false"
  | FList l => "[" +:+ join ", " (map json_dumps l) +:+ "]"
  | FDict d =>
      "{" +:+ join ", " (map (fun kv => quoted (fst kv) +:+ ": " +:+ json_dumps (snd kv)) d)
      +:+ "}"
  end.

(** The text of an item of a list field that is a dict. *)
Definition item_text (d : list (string * Field)) : string :=
  match py_or (py_or (py_or (field_get "text" d) (field_get "content" d))
                     (field_get "data" d)) (FStr "") with
  | FStr s => s
  | text => json_dumps text
  end.

Fixpoint _stringify_stream_field (field : Field) : string :=
  match field with
  | FNone => ""
  | FStr s => s
  | FList items =>
      join "" (map (fun item =>
                      match item with
                      | FDict d => item_text d
                      | _ => _stringify_stream_field item
                      end) items)
  | FDict d =>
      let texts := map (fun kv => (fst kv, (snd kv, _stringify_stream_field (snd kv)))) d in
      let pick k :=
        match dict_get k texts with
        | Some r => r
        | None => (FNone, "")
        end in
      let text := if truthy (fst (pick "text")) then pick "text" else pick "content" in
      match fst text with
      | FStr s => s
      | t => if truthy t then snd text else json_dumps field
      end
  | FInt z => int_text z
  | FBool b => if b then "True" else "False"
  end.

(** The state of the loop over the stream in [run_deep_reasoning];
    [echoed] is what the loop printed. *)
Record Assembler : Type := mkAssembler {
  is_answering : bool;
  reasoning_parts : list string;
  answer_parts : list string;
  echoed : list string
}.

Definition assembler_start : Assembler := mkAssembler false [] [] [].

Definition rule (n : nat) : string := String.concat "" (repeat "=" n).

Definition ANSWER_BANNER : string :=
  nl +:+ rule 20 +:+ "完整回复" +:+ rule 20 +:+ nl +:+ nl.

(** The part of the loop body that reads a delta. *)
Definition feed_delta (a : Assembler) (delta : Delta) : Assembler :=
  let thinking0 := _stringify_stream_field (reasoning_content delta) in
  let thinking_text :=
    if negb (nonempty thinking0) then _stringify_stream_field (thinking delta)
    else thinking0 in
  let a1 :=
    if nonempty thinking_text then
      mkAssembler (is_answering a)
                  (reasoning_parts a ++ [thinking_text])
                  (answer_parts a)
                  (if negb (is_answering a) then echoed a ++ [thinking_text] else echoed a)
    else a in
  let content_text := _stringify_stream_field (delta_content delta) in
  if nonempty content_text then
    mkAssembler true
                (reasoning_parts a1)
                (answer_parts a1 ++ [content_text])
                ((if negb (is_answering a1) then echoed a1 ++ [ANSWER_BANNER] else echoed a1)
                   ++ [content_text])
  else a1.

(** The loop body. *)
Definition feed_chunk (a : Assembler) (chunk : Chunk) : Assembler :=
  match choices chunk with
  | [] =>
      match usage chunk with
      | Some u =>
          mkAssembler (is_answering a) (reasoning_parts a) (answer_parts a)
                      (echoed a ++ [nl +:+ "Usage:" +:+ nl; u +:+ nl])
      | None => a
      end
  | None :: _ => a
  | Some delta :: _ => feed_delta a delta
  end.

(** The loop over the chunks the stream delivers (an exception raised
    while reading the stream ends the loop where it stands). *)
Definition assemble (stream : list Chunk) : Assembler :=
  fold_left feed_chunk stream assembler_start.

Definition or_text (s default : string) : string := if nonempty s then s else default.

Definition reasoning_text (a : Assembler) : string :=
  py_strip (String.concat "" (reasoning_parts a)).

Definition answer_text (a : Assembler) : string :=
  py_strip (String.concat "" (answer_parts a)).

Definition combined_sections (a : Assembler) : string :=
  py_strip (join (nl +:+ nl)
    [ "### 思考过程"; or_text (reasoning_text a) "（无思考内容）";
      "### 完整回复"; or_text (answer_text a) "（无正式回复）" ]).

Fixpoint print_all (texts : list string) : Action unit :=
  match texts with
  | [] => ret tt
  | t :: rest => run print t; print_all rest
  end.

Definition run_deep_reasoning (transcripts : list Transcript)
    (mem_code_sections : list string) : Action string :=
  match transcripts with
  | [] => ret ""
  | _ :: _ =>
      fun w =>
        match deep_backend w with
        | None => (Ok "", w)
        | Some create =>
            match create transcripts mem_code_sections with
            | None => (Ok "", w)
            | Some stream =>
                (run print (nl +:+ "[=] 深度思考输出（deepseek-v3.2-exp）" +:+ nl +:+ nl);
                 run print (rule 20 +:+ "思考过程" +:+ rule 20 +:+ nl +:+ nl);
                 let a := assemble stream in
                 run print_all (echoed a);
                 run print (nl +:+ nl +:+ "[=] 深度思考分析完成" +:+ nl +:+ nl);
                 ret (combined_sections a)) w
            end
        end
  end.

Definition write_result_report (report_md deep_md : string)
    (mem_code_sections : list string) : Action unit :=
  let main_content := py_strip report_md in
  let deep_section := py_strip deep_md in
  let lines :=
    (if nonempty main_content then [main_content] else [])
    ++ ["## 深度思考输出"]
    ++ [if nonempty deep_section then deep_section else "（未生成深度思考结果）"]
    ++ match mem_code_sections with
       | [] => []
       | _ :: _ => ["## 可控内存参数代码汇总"; join (nl +:+ nl) mem_code_sections]
       end in
  fun w => (Ok tt, set_report_files w
                     (report_files w ++ [py_strip (join (nl +:+ nl) lines) +:+ nl])).

(** [{"address": handler["address"], "func_name": handler["func_name"]}] *)
Definition handler_target_of (handler : Dict string) : Result (Dict string) :=
  match dict_index "address" handler with
  | Err e => Err e
  | Ok address =>
      match dict_index "func_name" handler with
      | Err e => Err e
      | Ok name => Ok (target_of address name)
      end
  end.

(** The first [try] of the loop body in [main]: the handler, or [None]
    where the loop goes on to the next caller. *)
Definition resolve_handler (caller : Dict string) : Action (option (Dict string)) :=
  catch (do handler <- analyze_major_function.analyze_major_function_target caller;
         ret (Some handler))
        (fun _ => ret None).

(** The two best-effort steps between resolution and enumeration. *)
Definition rename_and_set_prototype (handler : Dict string) : Action unit :=
  run catch (do t <- lift (handler_target_of handler);
             do _ <- rename_iocontrol_code.rename_io_control_code t;
             ret tt)
            (fun _ => ret tt);
  catch (do t <- lift (handler_target_of handler);
         do _ <- define_driver_dispatch.define_driver_dispatch t;
         ret tt)
        (fun _ => ret tt).

(** The loop over the callers in [main]. *)
Fixpoint main_loop (callers : list (Dict string)) (reports : list string)
    (all_transcripts : list Transcript) (all_mem_codes : list string)
    : Action (list string * list Transcript * list string) :=
  match callers with
  | [] => ret (reports, all_transcripts, all_mem_codes)
  | caller :: rest =>
      do resolved <- resolve_handler caller;
      match resolved with
      | None => main_loop rest reports all_transcripts all_mem_codes
      | Some handler =>
          run rename_and_set_prototype handler;
          do '(report, transcripts, mem_codes) <- process_major_function caller handler;
          main_loop rest (reports ++ [report]) (all_transcripts ++ transcripts)
                    (all_mem_codes ++ mem_codes)
      end
  end.

Definition REPORT_TITLE : string := "# IoCreateDevice 调度分析报告".

Definition REPORT_SEPARATOR : string := nl +:+ nl +:+ "---" +:+ nl +:+ nl.

Definition final_output_of (reports : list string) : string :=
  REPORT_TITLE +:+ nl +:+ nl +:+ join REPORT_SEPARATOR reports.

Definition main : Action unit :=
  do found <- find_iocreatedevice_refs.find_iocreatedevice_refs;
  do entries <- lift (typed (as_str_dicts found));
  let callers := dedupe_functions entries "func_name" "address" in
  match callers with
  | [] => print ("未找到 IoCreateDevice 引用函数。" +:+ nl)
  | _ :: _ =>
      do '(reports, all_transcripts, all_mem_codes) <- main_loop callers [] [] [];
      let final_output := final_output_of reports in
      run print (final_output +:+ nl);
      do deep_reasoning_md <- run_deep_reasoning all_transcripts all_mem_codes;
      write_result_report final_output deep_reasoning_md all_mem_codes
  end.

End pipeline.

(* ===================================================================== *)
(** ** The specification's wording, for comparison with the code *)
(* ===================================================================== *)

Module Spec.

(** The identity of a record: (name.lower, address.lower). *)
Definition entry_key (name_key addr_key : string) (e : Dict string) : string * string :=
  (py_lower (default "" (dict_get name_key e)),
   py_lower (default "" (dict_get addr_key e))).

(** "Records in first-seen order with duplicate keys removed". *)
Fixpoint first_seen {A K : Type} `{EqDecision K} (key : A -> K) (l : list A) : list A :=
  match l with
  | [] => []
  | x :: rest => x :: filter (fun y => key y <> key x) (first_seen key rest)
  end.

(** A record neither of whose two fields is missing. *)
Definition both_present (name_key addr_key : string) (e : Dict string) : Prop :=
  has_key name_key e = true /\ has_key addr_key e = true.

(** A record the deduplicator keeps: both fields there and not empty. *)
Definition usable (name_key addr_key : string) (e : Dict string) : Prop :=
  pipeline.falsy (dict_get name_key e) = false /\ pipeline.falsy (dict_get addr_key e) = false.

#[global] Instance both_present_dec n a e : Decision (both_present n a e).
Proof. unfold both_present. apply _. Defined.

#[global] Instance usable_dec n a e : Decision (usable n a e).
Proof. unfold usable. apply _. Defined.

(** The deduplicator as the specification words it: the records with
    both fields present, first occurrence of each key. *)
Definition dedupe_as_worded (entries : list (Dict string))
    (name_key addr_key : string) : list (Dict string) :=
  first_seen (entry_key name_key addr_key)
             (filter (both_present name_key addr_key) entries).

(** The answer-channel fragment a chunk yields. *)
Definition answer_fragment (chunk : Chunk) : string :=
  match choices chunk with
  | Some delta :: _ => pipeline._stringify_stream_field (delta_content delta)
  | _ => ""
  end.

(** The reasoning-channel fragment a chunk yields. *)
Definition reasoning_fragment (chunk : Chunk) : string :=
  match choices chunk with
  | Some delta :: _ =>
      let t := pipeline._stringify_stream_field (reasoning_content delta) in
      if nonempty t then t else pipeline._stringify_stream_field (thinking delta)
  | _ => ""
  end.

(** The last assistant message whose whole text is a JSON object. *)
Definition last_object (responses : list Message) (d : Dict JSON) : Prop :=
  exists before m after,
    responses = before ++ m :: after
    /\ role m = "assistant"
    /\ json_loads (content m) = Some (JObj d)
    /\ Forall (fun m' => role m' = "assistant" ->
                         forall d', json_loads (content m') <> Some (JObj d')) after.

(** No assistant message is, as a whole, a JSON object. *)
Definition no_object (responses : list Message) : Prop :=
  Forall (fun m => role m = "assistant" ->
                   forall d, json_loads (content m) <> Some (JObj d)) responses.

End Spec.

(* ===================================================================== *)
(** ** Observations on a run *)
(* ===================================================================== *)

Module Run.

(** The world once conversation [c] has been submitted. *)
Definition asked (w : World) (c : Conversation) : World :=
  set_requests w (requests w ++ [c]).

(** What the backend answers when [c] is submitted in world [w]. *)
Definition reply_of (w : World) (c : Conversation) : Result (list Message) :=
  match oracle w (length (requests w)) c with
  | Some final_responses => Ok final_responses
  | None => Err (BackendError "run")
  end.

Definition and_then {A B : Type} (r : Result A) (f : A -> Result B) : Result B :=
  match r with
  | Ok a => f a
  | Err e => Err e
  end.

(** The result is no [ValueError], whatever its message. *)
Definition not_value_error {A : Type} (r : Result A) : Prop :=
  forall msg, r <> Err (ValueError msg).

(** What a failed parse attempt prints about the reply it could not
    parse: the banner, then every message with a non-empty content. *)
Definition failure_output (responses : list Message) : list string :=
  find_iocreatedevice_refs.FAILURE_BANNER
  :: map find_iocreatedevice_refs.response_line
         (filter (fun resp => content resp <> "") responses).

(** The extraction of the discover step finds no array in the reply. *)
Definition unparsable (responses : list Message) : Prop :=
  find_iocreatedevice_refs.extract_json_result responses
  = Err (RuntimeError "未能从助手响应中解析到 JSON 列表").

(** What became of each child, in enumeration order: its description
    and memory excerpt, or [None] when describing it raised. *)
Fixpoint child_outcomes (children : list (Dict string)) (w : World)
    : list (Dict string * option (string * string)) :=
  match children with
  | [] => []
  | child :: rest =>
      let r := pipeline.describe_child child w in
      (child, match fst r with Ok described => Some described | Err _ => None end)
      :: child_outcomes rest (snd r)
  end.

(** The world once every child has been tried. *)
Fixpoint after_children (children : list (Dict string)) (w : World) : World :=
  match children with
  | [] => w
  | child :: rest => after_children rest (snd (pipeline.describe_child child w))
  end.

(** One report section per described child. *)
Definition sections_of (outcomes : list (Dict string * option (string * string)))
    : list string :=
  omap (fun o => match snd o with
                 | Some (desc, _) => Some (pipeline.format_child_section (fst o) desc)
                 | None => None
                 end) outcomes.

(** One excerpt per described child whose memory analysis ran. *)
Definition mem_codes_of (outcomes : list (Dict string * option (string * string)))
    : list string :=
  omap (fun o => match snd o with
                 | Some (_, mem_code) =>
                     if nonempty mem_code
                     then Some ("### " +:+ pipeline.fmt_get "name" (fst o)
                                +:+ " 可控内存参数" +:+ nl +:+ py_strip mem_code)
                     else None
                 | None => None
                 end) outcomes.

(** A step's text, or the placeholder that stands for its failure. *)
Definition or_placeholder (r : Result string) (placeholder : string) : string :=
  match r with
  | Ok text => text
  | Err _ => placeholder
  end.

(** The world in which the children of [handler] are enumerated, when
    [caller] is taken up in world [w]: after the resolution and the two
    best-effort steps. *)
Definition enumeration_world (caller handler : Dict string) (w : World) : World :=
  snd (pipeline.rename_and_set_prototype handler
         (snd (pipeline.resolve_handler caller w))).

(** The body of the loop of [main] for one caller: its report, or [None]
    when the handler is not resolved. *)
Definition caller_report (caller : Dict string)
    : Action (option (string * list Transcript * list string)) :=
  do resolved <- pipeline.resolve_handler caller;
  match resolved with
  | None => ret None
  | Some handler =>
      run pipeline.rename_and_set_prototype handler;
      do r <- pipeline.process_major_function caller handler;
      ret (Some r)
  end.

(** The cache as [load_cache] reads it from the file of world [w]. *)
Definition loaded (w : World) : Dict DescriptionRecord :=
  describe_external_function.load_lines (cache_file w) [].

(** The lines [write_cache] writes for a cache. *)
Definition persisted (cache : Dict DescriptionRecord) : list (option DescriptionRecord) :=
  map (fun kv => Some (snd kv)) cache.

(** A cache as [load_cache] builds it: every record sits under the
    lowercased form of its own, non-empty, name, and no key occurs twice. *)
Definition cache_wf (cache : Dict DescriptionRecord) : Prop :=
  Forall (fun kv => fst kv = py_lower (rec_name (snd kv)) /\ rec_name (snd kv) <> "") cache
  /\ NoDup (map fst cache).

End Run.

(* ===================================================================== *)
(** ** Sample inputs *)
(* ===================================================================== *)

Module Samples.

(** A world that has seen nothing yet, around a given backend. *)
Definition fresh (o : nat -> Conversation -> option (list Message)) : World :=
  mkWorld o [] [] [] [] [] [] None [].

Definition assistant (text : string) : Message := mkMessage "assistant" text.

(** A backend that answers every conversation, the n-th one with the
    text "reply n". *)
Definition numbered_backend (n : nat) (c : Conversation) : option (list Message) :=
  Some [mkMessage "user" "prompt"; assistant ("reply " +:+ nat_text n)].

(** A backend whose replies never hold JSON. *)
Definition prose_backend (n : nat) (c : Conversation) : option (list Message) :=
  Some [mkMessage "user" ""; assistant "no json here"].

(** A backend whose second reply is the first to hold an array. *)
Definition second_try_backend (n : nat) (c : Conversation) : option (list Message) :=
  Some [assistant (if n =? 0 then "no json here" else "[1]")].

(** A backend whose every reply is a description carrying the memory
    marker. *)
Definition marker_backend (n : nat) (c : Conversation) : option (list Message) :=
  Some [assistant "copies a buffer # MEM #"].

(** A world whose cache already holds a description of sub_1. *)
Definition cached_world : World :=
  mkWorld numbered_backend [] [Some (mkRecord "sub_1" "cached text" ["0x1"])]
          [] [] [] [] None [].

(** A backend for a run over three callers: discovery names three
    callers, each resolves to a handler, and the children of every
    handler fail to enumerate (the reply holds no array). *)
Definition three_callers_text : string :=
  "[{" +:+ dq +:+ "address" +:+ dq +:+ ":" +:+ dq +:+ "0x10" +:+ dq +:+ ","
       +:+ dq +:+ "func_name" +:+ dq +:+ ":" +:+ dq +:+ "sub_10" +:+ dq +:+ "},"
  +:+ "{" +:+ dq +:+ "address" +:+ dq +:+ ":" +:+ dq +:+ "0x20" +:+ dq +:+ ","
       +:+ dq +:+ "func_name" +:+ dq +:+ ":" +:+ dq +:+ "sub_20" +:+ dq +:+ "},"
  +:+ "{" +:+ dq +:+ "address" +:+ dq +:+ ":" +:+ dq +:+ "0x30" +:+ dq +:+ ","
       +:+ dq +:+ "func_name" +:+ dq +:+ ":" +:+ dq +:+ "sub_30" +:+ dq +:+ "}]".

Definition handler_text : string :=
  "{" +:+ dq +:+ "address" +:+ dq +:+ ":" +:+ dq +:+ "0x99" +:+ dq +:+ ","
      +:+ dq +:+ "func_name" +:+ dq +:+ ":" +:+ dq +:+ "dispatch" +:+ dq +:+ "}".

Definition three_callers_backend (n : nat) (c : Conversation) : option (list Message) :=
  match conv_step c with
  | Discover => Some [assistant three_callers_text]
  | ResolveHandler => Some [assistant handler_text]
  | ListSubfunctions => Some [assistant "I could not list them"]
  | _ => Some [assistant "text"]
  end.

Definition caller_10 : Dict string := [("address", "0x10"); ("func_name", "sub_10")].
Definition caller_20 : Dict string := [("address", "0x20"); ("func_name", "sub_20")].
Definition caller_30 : Dict string := [("address", "0x30"); ("func_name", "sub_30")].
Definition handler_99 : Dict string := [("address", "0x99"); ("func_name", "dispatch")].

Definition external_child : Dict string :=
  [("address", "0x1"); ("name", "memcpy"); ("type", "external")].

Definition internal_child : Dict string :=
  [("address", "0x2"); ("name", "sub_2"); ("type", "internal")].

(** The texts of the extraction examples: the object with member a = 1,
    bare, inside a json fence with prose around it, and between noise. *)
Definition object_text : string := "{" +:+ dq +:+ "a" +:+ dq +:+ ":1}".
Definition fenced_text : string :=
  "prefix ```json" +:+ nl +:+ object_text +:+ nl +:+ "``` suffix".
Definition noisy_text : string := "noise " +:+ object_text +:+ " noise".
Definition no_json_text : string := "no json here".
Definition object_value : Dict JSON := [("a", JInt 1)].

(** The same three shapes around an array. *)
Definition array_text : string := "[1]".
Definition fenced_array_text : string :=
  "prefix ```json" +:+ nl +:+ array_text +:+ nl +:+ "``` suffix".
Definition noisy_array_text : string := "noise " +:+ array_text +:+ " noise".

(** The records of the deduplication example. *)
Definition rec_f : Dict string := [("func_name", "f"); ("address", "0x1")].
Definition rec_g : Dict string := [("func_name", "g"); ("address", "0x2")].
Definition rec_unnamed : Dict string := [("func_name", ""); ("address", "0x1")].

(** The chunks of the streaming example. *)
Definition reasoning_chunk (text : string) : Chunk :=
  mkChunk [Some (mkDelta (FStr text) FNone FNone)] None.
Definition answer_chunk (text : string) : Chunk :=
  mkChunk [Some (mkDelta FNone FNone (FStr text))] None.
Definition split_stream : list Chunk :=
  [reasoning_chunk "why "; reasoning_chunk "so"; answer_chunk "yes";
   reasoning_chunk "ignored"].

End Samples.

(* ===================================================================== *)
(** ** Further observations *)
(* ===================================================================== *)

Module Observe.

(** [a] is what [accept] makes of the last assistant message it accepts. *)
Definition last_accepted {A : Type} (accept : string -> option A)
    (responses : list Message) (a : A) : Prop :=
  exists before m after,
    responses = before ++ m :: after
    /\ role m = "assistant"
    /\ accept (content m) = Some a
    /\ Forall (fun m' => role m' = "assistant" -> accept (content m') = None) after.

(** No assistant message is accepted. *)
Definition none_accepted {A : Type} (accept : string -> option A)
    (responses : list Message) : Prop :=
  Forall (fun m => role m = "assistant" -> accept (content m) = None) responses.

(** What the discover step's extractor makes of one assistant text: a
    text that is blank once stripped is passed over, any other goes
    through the three parse attempts. *)
Definition discover_accepts (raw : string) : option (list JSON) :=
  if nonempty (py_strip raw) then find_iocreatedevice_refs.parse_reply (py_strip raw)
  else None.

(** The whole text as a JSON array, the only attempt of the
    enumerate-children extractor. *)
Definition whole_array (raw : string) : option (list JSON) :=
  match json_loads raw with
  | Some (JArr l) => Some l
  | _ => None
  end.

(** What the set-prototype step's extractor makes of one assistant text:
    the stripped text, when it is not empty and is, as a whole, a JSON
    object. *)
Definition stripped_object (raw : string) : option (Dict JSON) :=
  if nonempty (py_strip raw) then
    match json_loads (py_strip raw) with
    | Some (JObj d) => Some d
    | _ => None
    end
  else None.

(** The members the rename step requires of the object it extracts. *)
Definition renamed (d : Dict JSON) : bool :=
  has_key "address" d && has_key "func_name" d && has_key "old_name" d
  && rename_iocontrol_code.is_io_control_code (dict_get "new_name" d).

(** The records of the cache file that [load_cache] files under the key
    of [name], in file order. *)
Definition records_named (name : string) (lines : list (option DescriptionRecord))
    : list DescriptionRecord :=
  filter (fun r => rec_name r <> "" /\ py_lower (rec_name r) = py_lower name)
         (omap id lines).

(** The callers of a run whose handler resolves, each taken up in the
    world its predecessors leave. *)
Fixpoint resolved_callers (callers : list (Dict string)) (w : World)
    : list (Dict string) :=
  match callers with
  | [] => []
  | caller :: rest =>
      match fst (pipeline.resolve_handler caller w) with
      | Ok (Some _) => caller :: resolved_callers rest (snd (Run.caller_report caller w))
      | _ => resolved_callers rest (snd (Run.caller_report caller w))
      end
  end.

(** The computation leaves the observation [f] of the world as it was. *)
Definition preserves {X A : Type} (f : World -> X) (m : Action A) : Prop :=
  forall w, f (snd (m w)) = f w.

(** An observation that none of the writes of the querying steps (the
    request log, the console, the sleeps and the cache file) can change. *)
Definition untouched_by_queries {X : Type} (f : World -> X) : Prop :=
  (forall w r, f (set_requests w r) = f w)
  /\ (forall w o, f (set_stdout w o) = f w)
  /\ (forall w n, f (set_slept w n) = f w)
  /\ (forall w c, f (set_cache_file w c) = f w).

(** An observation that no write of an analysis step can change: those
    of the querying steps, and those to the transcript log and sink. *)
Definition untouched_by_steps {X : Type} (f : World -> X) : Prop :=
  untouched_by_queries f
  /\ (forall w l, f (set_log_file w l) = f w)
  /\ (forall w l, f (set_transcript_sink w l) = f w).

(** The first part of [main]: the callers the run goes on with. *)
Definition discovered : Action (list (Dict string)) :=
  do found <- find_iocreatedevice_refs.find_iocreatedevice_refs;
  do entries <- lift (typed (as_str_dicts found));
  ret (pipeline.dedupe_functions entries "func_name" "address").

(** The rest of [main], from the callers on. *)
Definition reported (callers : list (Dict string)) : Action unit :=
  match callers with
  | [] => print ("未找到 IoCreateDevice 引用函数。" +:+ nl)
  | _ :: _ =>
      do '(reports, all_transcripts, all_mem_codes) <- pipeline.main_loop callers [] [] [];
      let final_output := pipeline.final_output_of reports in
      run print (final_output +:+ nl);
      do deep_reasoning_md <- pipeline.run_deep_reasoning all_transcripts all_mem_codes;
      pipeline.write_result_report final_output deep_reasoning_md all_mem_codes
  end.

(** The two lines printed for a chunk without choices that carries usage
    statistics. *)
Definition usage_lines (chunk : Chunk) : list string :=
  match choices chunk, usage chunk with
  | [], Some u => [nl +:+ "Usage:" +:+ nl; u +:+ nl]
  | _, _ => []
  end.

(** A fragment as a list: nothing for the empty text. *)
Definition shown (text : string) : list string :=
  if nonempty text then [text] else [].

(** The non-empty fragments of one channel, in stream order. *)
Definition fragments (channel : Chunk -> string) (stream : list Chunk) : list string :=
  filter (fun text => text <> "") (map channel stream).

End Observe.

(* ===================================================================== *)
(** ** The steps, one conversation each *)
(* ===================================================================== *)

Ltac unfold_action :=
  unfold bind, ret, lift, raise, catch, bot_run, print, sleep, typed in *.

Lemma nonempty_true (s : string) : nonempty s = true <-> s <> "".
Proof. destruct s; cbn; split; congruence. Qed.

Lemma nonempty_false (s : string) : nonempty s = false <-> s = "".
Proof. destruct s; cbn; split; congruence. Qed.

Lemma has_key_true {V : Type} (k : string) (d : Dict V) :
  has_key k d = true <-> exists v, dict_get k d = Some v.
Proof.
  unfold has_key. destruct (dict_get k d); split; try done; eauto.
  by intros [? ?].
Qed.

Lemma has_key_false {V : Type} (k : string) (d : Dict V) :
  has_key k d = false <-> dict_get k d = None.
Proof. unfold has_key. by destruct (dict_get k d). Qed.

Lemma has_key_get {V : Type} (k : string) (d : Dict V) (v : V) :
  dict_get k d = Some v -> has_key k d = true.
Proof. intros H. apply has_key_true. eauto. Qed.

Lemma bot_run_eq c w : bot_run c w = (Run.reply_of w c, Run.asked w c).
Proof. reflexivity. Qed.

Section Steps.

Variables (entry : Dict string) (address name : string) (w : World).

Section NameKey.

Hypothesis Haddress : dict_get "address" entry = Some address.
Hypothesis Hname : dict_get "name" entry = Some name.

Lemma describe_internal_function_eq :
  describe_internal_function.describe_internal_function entry w
  = let c := mkConversation DescribeInternal name address None in
    (Run.and_then (Run.reply_of w c) extract_markdown, Run.asked w c).
Proof using Haddress Hname.
  unfold describe_internal_function.describe_internal_function,
    describe_internal_function.build_messages, dict_index.
  rewrite (has_key_get _ _ _ Haddress), (has_key_get _ _ _ Hname), Haddress, Hname.
  unfold_action. cbn. unfold Run.reply_of.
  by destruct (oracle w _ _).
Qed.

End NameKey.

Section FuncNameKey.

Hypothesis Haddress : dict_get "address" entry = Some address.
Hypothesis Hname : dict_get "func_name" entry = Some name.

Lemma analyze_memory_param_eq :
  analyze_memory_param.analyze_memory_param entry w
  = let c := mkConversation AnalyzeMemoryParam name address None in
    (Run.and_then (Run.reply_of w c) analyze_memory_param.extract_json, Run.asked w c).
Proof using Haddress Hname.
  unfold analyze_memory_param.analyze_memory_param,
    analyze_memory_param.build_messages, dict_index.
  rewrite (has_key_get _ _ _ Haddress), (has_key_get _ _ _ Hname), Haddress, Hname.
  unfold_action. cbn. unfold Run.reply_of.
  by destruct (oracle w _ _).
Qed.

Lemma analyze_memory_param_markdown_eq :
  analyze_memory_param.analyze_memory_param_markdown entry w
  = let c := mkConversation AnalyzeMemoryParam name address None in
    (Run.and_then (Run.and_then (Run.reply_of w c) analyze_memory_param.extract_json)
                  analyze_memory_param.format_markdown,
     Run.asked w c).
Proof using Haddress Hname.
  unfold analyze_memory_param.analyze_memory_param_markdown.
  unfold bind at 1. rewrite analyze_memory_param_eq. cbn zeta.
  by destruct (Run.and_then _ _).
Qed.

Lemma list_subfunctions_eq :
  list_subfunctions.list_subfunctions entry w
  = let c := mkConversation ListSubfunctions name address None in
    (Run.and_then (Run.and_then (Run.reply_of w c) list_subfunctions.extract_json_array)
                  (fun parsed => typed (as_str_dicts parsed)),
     Run.asked w c).
Proof using Haddress Hname.
  unfold list_subfunctions.list_subfunctions,
    list_subfunctions.build_messages, dict_index.
  rewrite (has_key_get _ _ _ Haddress), (has_key_get _ _ _ Hname), Haddress, Hname.
  unfold_action. cbn. unfold Run.reply_of.
  destruct (oracle w _ _) as [r|]; cbn; [|done].
  by destruct (list_subfunctions.extract_json_array r).
Qed.

Lemma analyze_major_function_target_eq :
  analyze_major_function.analyze_major_function_target entry w
  = let c := mkConversation ResolveHandler name address None in
    (Run.and_then (Run.and_then (Run.reply_of w c)
                                analyze_major_function.extract_json_object)
                  (fun parsed => typed (as_str_dict parsed)),
     Run.asked w c).
Proof using Haddress Hname.
  unfold analyze_major_function.analyze_major_function_target,
    analyze_major_function.build_messages, dict_index.
  rewrite (has_key_get _ _ _ Haddress), (has_key_get _ _ _ Hname), Haddress, Hname.
  unfold_action. cbn. unfold Run.reply_of.
  destruct (oracle w _ _) as [r|]; cbn; [|done].
  by destruct (analyze_major_function.extract_json_object r).
Qed.

Lemma rename_io_control_code_eq :
  rename_iocontrol_code.rename_io_control_code entry w
  = let c := mkConversation RenameIoControlCode name address None in
    (Run.and_then (Run.reply_of w c) rename_iocontrol_code.extract_json_result,
     Run.asked w c).
Proof using Haddress Hname.
  unfold rename_iocontrol_code.rename_io_control_code,
    rename_iocontrol_code.build_messages, dict_index.
  rewrite (has_key_get _ _ _ Haddress), (has_key_get _ _ _ Hname), Haddress, Hname.
  unfold_action. cbn. unfold Run.reply_of.
  by destruct (oracle w _ _) as [r|].
Qed.

Lemma define_driver_dispatch_eq :
  define_driver_dispatch.define_driver_dispatch entry w
  = let c := mkConversation DefineDriverDispatch name address None in
    (Run.and_then (Run.reply_of w c) define_driver_dispatch.extract_json_result,
     Run.asked w c).
Proof using Haddress Hname.
  unfold define_driver_dispatch.define_driver_dispatch,
    define_driver_dispatch.build_messages, dict_index.
  rewrite (has_key_get _ _ _ Haddress), (has_key_get _ _ _ Hname), Haddress, Hname.
  unfold_action. cbn. unfold Run.reply_of.
  by destruct (oracle w _ _) as [r|].
Qed.

Lemma analyze_irp_memory_access_eq context :
  analyze_irp_memory_access.analyze_irp_memory_access entry context true w
  = let c := mkConversation AnalyzeIrpMemoryAccess name address
               (match context with
                | Some text => if nonempty text then Some text else None
                | None => None
                end) in
    match Run.reply_of w c with
    | Ok final_responses =>
        let payload := mkTranscript entry c final_responses in
        (extract_markdown final_responses,
         set_transcript_sink
           (set_log_file (Run.asked w c) (log_file w ++ [payload]))
           (transcript_sink w ++ [payload]))
    | Err e => (Err e, Run.asked w c)
    end.
Proof using Haddress Hname.
  unfold analyze_irp_memory_access.analyze_irp_memory_access,
    analyze_irp_memory_access.build_messages,
    analyze_irp_memory_access.save_transcript, dict_index.
  rewrite (has_key_get _ _ _ Haddress), (has_key_get _ _ _ Hname), Haddress, Hname.
  unfold_action. cbn. unfold Run.reply_of.
  by destruct (oracle w _ _) as [r|].
Qed.

End FuncNameKey.

End Steps.

(* ===================================================================== *)
(** ** The structured extractors *)
(* ===================================================================== *)

Lemma assistant_contents_snoc responses m :
  rev (assistant_contents (responses ++ [m]))
  = (if decide (role m = "assistant") then [content m] else [])
    ++ rev (assistant_contents responses).
Proof.
  unfold assistant_contents.
  rewrite filter_app, map_app, rev_app_distr.
  rewrite filter_cons, filter_nil. by case_decide.
Qed.

Lemma extract_json_snoc responses m :
  analyze_memory_param.extract_json (responses ++ [m])
  = if decide (role m = "assistant") then
      match json_loads (content m) with
      | Some (JObj d) => Ok d
      | _ => analyze_memory_param.extract_json responses
      end
    else analyze_memory_param.extract_json responses.
Proof.
  unfold analyze_memory_param.extract_json.
  rewrite assistant_contents_snoc. by case_decide.
Qed.

Lemma extract_json_object_snoc responses m :
  analyze_major_function.extract_json_object (responses ++ [m])
  = if decide (role m = "assistant") then
      match json_loads (content m) with
      | Some (JObj d) =>
          if has_key "address" d && has_key "func_name" d then Ok d
          else Err (RuntimeError "JSON 对象缺少 address 或 func_name 字段")
      | _ => analyze_major_function.extract_json_object responses
      end
    else analyze_major_function.extract_json_object responses.
Proof.
  unfold analyze_major_function.extract_json_object.
  rewrite assistant_contents_snoc. by case_decide.
Qed.

Lemma last_object_nil d : ~ Spec.last_object [] d.
Proof. intros (before & m & after & E & _). by destruct before. Qed.

Lemma last_object_snoc responses m d :
  Spec.last_object (responses ++ [m]) d
  <-> (role m = "assistant" /\ json_loads (content m) = Some (JObj d))
      \/ ((role m = "assistant" -> forall d', json_loads (content m) <> Some (JObj d'))
          /\ Spec.last_object responses d).
Proof.
  split.
  - intros (before & m0 & after & E & Hrole & Hload & Hafter).
    destruct after as [|x after _] using rev_ind.
    + apply app_inj_tail in E as [-> ->]. by left.
    + change (before ++ m0 :: after ++ [x]) with (before ++ (m0 :: after) ++ [x]) in E.
      rewrite app_assoc in E. apply app_inj_tail in E as [-> ->].
      rewrite Forall_app, Forall_singleton in Hafter. destruct Hafter as [Hafter Hx].
      right. split; [assumption|]. by exists before, m0, after.
  - intros [[Hrole Hload]|[Hm (before & m0 & after & -> & Hrole & Hload & Hafter)]].
    + exists responses, m, []. by repeat split.
    + exists before, m0, (after ++ [m]).
      rewrite <- app_assoc. repeat split; try done.
      rewrite Forall_app, Forall_singleton. by split.
Qed.

Lemma extract_json_last_object responses d :
  analyze_memory_param.extract_json responses = Ok d <-> Spec.last_object responses d.
Proof.
  induction responses as [|m responses IH] using rev_ind.
  - split; [discriminate|]. intros H. by apply last_object_nil in H.
  - rewrite extract_json_snoc, last_object_snoc, <- IH.
    case_decide as Hrole.
    + destruct (json_loads (content m)) as [[| | | | | |d0]|] eqn:Hload;
        try (split; [intros H; right; split; [by intros _ d'|exact H]
                    |intros [[_ ?]|[_ ?]]; [discriminate|assumption]]).
      split.
      * intros [= ->]. by left.
      * intros [[_ [= ->]]|[Hno _]]; [reflexivity|]. by destruct (Hno Hrole d0).
    + split; [intros H; right; by split|]. intros [[? _]|[_ ?]]; [done|assumption].
Qed.

Lemma extract_json_no_object responses :
  analyze_memory_param.extract_json responses = Err (RuntimeError "未能解析到 JSON 对象")
  <-> Spec.no_object responses.
Proof.
  unfold Spec.no_object.
  induction responses as [|m responses IH] using rev_ind.
  - split; [constructor|reflexivity].
  - rewrite extract_json_snoc, Forall_app, Forall_singleton, <- IH.
    case_decide as Hrole.
    + destruct (json_loads (content m)) as [[| | | | | |d0]|] eqn:Hload;
        try (split; [intros H; split; [exact H|by intros _ d']|by intros [? _]]).
      split; [discriminate|]. intros [_ Hno]. by destruct (Hno Hrole d0).
    + split; [intros H; by split|by intros [? _]].
Qed.

Lemma extract_json_object_after_extract_json responses :
  analyze_major_function.extract_json_object responses
  = match analyze_memory_param.extract_json responses with
    | Ok d =>
        if has_key "address" d && has_key "func_name" d then Ok d
        else Err (RuntimeError "JSON 对象缺少 address 或 func_name 字段")
    | Err _ => Err (RuntimeError "未能从助手响应中解析到 JSON 对象")
    end.
Proof.
  induction responses as [|m responses IH] using rev_ind; [reflexivity|].
  rewrite extract_json_object_snoc, extract_json_snoc, IH.
  case_decide; [|reflexivity].
  by destruct (json_loads (content m)) as [[| | | | | |d0]|].
Qed.

(** C1, as the claim words it, fails: for the object shape the text
    inside a json fence and the text between noise are not extracted. *)
Lemma C1_fence_and_noise_are_not_extracted :
  analyze_memory_param.extract_json [Samples.assistant Samples.fenced_text]
  = Err (RuntimeError "未能解析到 JSON 对象")
  /\ analyze_memory_param.extract_json [Samples.assistant Samples.noisy_text]
     = Err (RuntimeError "未能解析到 JSON 对象")
  /\ analyze_major_function.extract_json_object [Samples.assistant Samples.fenced_text]
     = Err (RuntimeError "未能从助手响应中解析到 JSON 对象")
  /\ analyze_major_function.extract_json_object [Samples.assistant Samples.noisy_text]
     = Err (RuntimeError "未能从助手响应中解析到 JSON 对象").
Proof. repeat split; vm_compute; reflexivity. Qed.

(** C1, amended: for the object shape, extraction walks backward through
    all assistant messages and makes one attempt on each, parsing its
    entire text as JSON; the result is the object of the last assistant
    message whose whole text is a JSON object, and the extraction error
    is raised exactly when no assistant message is one.
    [extract_json_object] requires the members address and func_name of
    that object in addition and raises when they are missing.  The bare
    object text extracts to the object with a = 1; the fenced text, the
    text between noise and the text without JSON raise the extraction
    error.  (The fence and the first-to-last bracket attempts are those
    of the discover step's array extractor only, where the fenced and
    the noisy array both extract.) *)
Theorem C1_object_extraction_parses_whole_text :
  (forall responses d,
      analyze_memory_param.extract_json responses = Ok d
      <-> Spec.last_object responses d)
  /\ (forall responses,
         analyze_memory_param.extract_json responses
         = Err (RuntimeError "未能解析到 JSON 对象")
         <-> Spec.no_object responses)
  /\ (forall responses,
         analyze_major_function.extract_json_object responses
         = match analyze_memory_param.extract_json responses with
           | Ok d =>
               if has_key "address" d && has_key "func_name" d then Ok d
               else Err (RuntimeError "JSON 对象缺少 address 或 func_name 字段")
           | Err _ => Err (RuntimeError "未能从助手响应中解析到 JSON 对象")
           end)
  /\ analyze_memory_param.extract_json [Samples.assistant Samples.object_text]
     = Ok Samples.object_value
  /\ analyze_memory_param.extract_json [Samples.assistant Samples.fenced_text]
     = Err (RuntimeError "未能解析到 JSON 对象")
  /\ analyze_memory_param.extract_json [Samples.assistant Samples.noisy_text]
     = Err (RuntimeError "未能解析到 JSON 对象")
  /\ analyze_memory_param.extract_json [Samples.assistant Samples.no_json_text]
     = Err (RuntimeError "未能解析到 JSON 对象")
  /\ find_iocreatedevice_refs.extract_json_result
       [Samples.assistant Samples.fenced_array_text] = Ok [JInt 1]
  /\ find_iocreatedevice_refs.extract_json_result
       [Samples.assistant Samples.noisy_array_text] = Ok [JInt 1].
Proof.
  split; [apply extract_json_last_object|].
  split; [apply extract_json_no_object|].
  split; [apply extract_json_object_after_extract_json|].
  repeat split; vm_compute; reflexivity.
Qed.

(* ===================================================================== *)
(** ** The deduplicator *)
(* ===================================================================== *)

Section Dedupe.

Context {A K : Type} `{EqDecision K} (key : A -> K).

Lemma first_seen_filter (P : A -> Prop) `{forall x, Decision (P x)} (l : list A) :
  (forall x y, key x = key y -> P x -> P y) ->
  filter P (Spec.first_seen key l) = Spec.first_seen key (filter P l).
Proof.
  intros Hkey.
  induction l as [|x l IH]; [reflexivity|].
  cbn [Spec.first_seen].
  destruct (decide (P x)) as [Hp|Hp].
  - rewrite !filter_cons_True by assumption. cbn [Spec.first_seen].
    f_equal. rewrite <- IH, !list_filter_filter.
    apply list_filter_iff. tauto.
  - rewrite !filter_cons_False by assumption.
    rewrite <- IH, list_filter_filter.
    apply list_filter_iff. intros y. split; [tauto|].
    intros Hy. split; [assumption|]. intros E. apply Hp. eauto.
Qed.

End Dedupe.

Lemma falsy_or_usable n a e :
  pipeline.falsy (dict_get n e) || pipeline.falsy (dict_get a e) = false
  <-> Spec.usable n a e.
Proof. unfold Spec.usable. rewrite orb_false_iff. reflexivity. Qed.

Lemma dedupe_loop_first_seen n a entries seen deduped :
  pipeline.dedupe_loop n a entries seen deduped
  = deduped
    ++ Spec.first_seen (Spec.entry_key n a)
         (filter (fun e => Spec.usable n a e /\ Spec.entry_key n a e ∉ seen) entries).
Proof.
  revert seen deduped.
  induction entries as [|e rest IH]; intros seen deduped.
  - cbn. by rewrite app_nil_r.
  - cbn [pipeline.dedupe_loop].
    destruct (pipeline.falsy (dict_get n e) || pipeline.falsy (dict_get a e)) eqn:Hf.
    + rewrite filter_cons_False; [apply IH|].
      intros [Hu _]. apply falsy_or_usable in Hu. congruence.
    + apply falsy_or_usable in Hf.
      fold (Spec.entry_key n a e).
      case_bool_decide as Hseen.
      * rewrite filter_cons_False by tauto. apply IH.
      * rewrite filter_cons_True by tauto.
        cbn [Spec.first_seen]. rewrite IH, <- app_assoc. cbn [app].
        do 2 f_equal. symmetry.
        etrans; [apply first_seen_filter; congruence|].
        f_equal. rewrite list_filter_filter.
        apply list_filter_iff. intros y.
        rewrite not_elem_of_union, not_elem_of_singleton. tauto.
Qed.

Lemma dedupe_functions_first_seen entries n a :
  pipeline.dedupe_functions entries n a
  = Spec.first_seen (Spec.entry_key n a) (filter (Spec.usable n a) entries).
Proof.
  unfold pipeline.dedupe_functions. rewrite dedupe_loop_first_seen. cbn [app].
  f_equal. apply list_filter_iff. intros e.
  split; [tauto|]. intros Hu. split; [assumption|]. apply not_elem_of_empty.
Qed.



(* ===================================================================== *)
(** ** The streaming assembler *)
(* ===================================================================== *)

Lemma feed_chunk_is_answering a chunk :
  pipeline.is_answering (pipeline.feed_chunk a chunk)
  = pipeline.is_answering a || nonempty (Spec.answer_fragment chunk).
Proof.
  unfold pipeline.feed_chunk, Spec.answer_fragment.
  destruct (choices chunk) as [|[delta|] rest]; cbn.
  - destruct (usage chunk); cbn; by rewrite orb_false_r.
  - unfold pipeline.feed_delta.
    destruct (nonempty (pipeline._stringify_stream_field (delta_content delta))); cbn.
    + by rewrite orb_true_r.
    + rewrite orb_false_r. by repeat case_match.
  - by rewrite orb_false_r.
Qed.

Lemma fold_feed_is_answering stream a :
  pipeline.is_answering (fold_left pipeline.feed_chunk stream a)
  = pipeline.is_answering a
    || existsb (fun chunk => nonempty (Spec.answer_fragment chunk)) stream.
Proof.
  revert a. induction stream as [|chunk stream IH]; intros a; cbn.
  - by rewrite orb_false_r.
  - rewrite IH, feed_chunk_is_answering. by rewrite orb_assoc.
Qed.

Lemma assemble_snoc stream chunk :
  pipeline.assemble (stream ++ [chunk])
  = pipeline.feed_chunk (pipeline.assemble stream) chunk.
Proof. unfold pipeline.assemble. by rewrite fold_left_app. Qed.

Lemma feed_chunk_after_answer a chunk :
  pipeline.is_answering a = true ->
  Spec.reasoning_fragment chunk <> "" ->
  pipeline.reasoning_parts (pipeline.feed_chunk a chunk)
  = pipeline.reasoning_parts a ++ [Spec.reasoning_fragment chunk]
  /\ pipeline.echoed (pipeline.feed_chunk a chunk)
     = pipeline.echoed a
       ++ (if nonempty (Spec.answer_fragment chunk)
           then [Spec.answer_fragment chunk] else []).
Proof.
  intros Ha Hr.
  unfold pipeline.feed_chunk, Spec.reasoning_fragment, Spec.answer_fragment in *.
  destruct (choices chunk) as [|[delta|] rest]; [done| |done].
  unfold pipeline.feed_delta.
  set (t0 := pipeline._stringify_stream_field (reasoning_content delta)) in *.
  set (t1 := pipeline._stringify_stream_field (thinking delta)) in *.
  set (c := pipeline._stringify_stream_field (delta_content delta)).
  assert (Ht : (if negb (nonempty t0) then t1 else t0) = (if nonempty t0 then t0 else t1))
    by (by destruct (nonempty t0)).
  rewrite Ht. apply nonempty_true in Hr. rewrite Hr, Ha. cbn.
  destruct (nonempty c); cbn; by rewrite ?app_nil_r.
Qed.

(** C8, as the claim words it, fails on its own example: the fragment
    received after the answer began is part of the reasoning text the
    assembler returns, which is therefore not the text "why so". *)
Lemma C8_late_reasoning_is_in_the_text :
  pipeline.reasoning_text (pipeline.assemble Samples.split_stream) = "why soignored"
  /\ pipeline.reasoning_text (pipeline.assemble Samples.split_stream) <> "why so".
Proof. split; [vm_compute; reflexivity|]. vm_compute. discriminate. Qed.

(** C8, amended: the assembler starts in THINKING; after any prefix of
    the stream it is in ANSWERING exactly when some chunk of the prefix
    yielded a non-empty answer fragment (so it changes state at the first
    such chunk and never goes back); in ANSWERING a non-empty reasoning
    fragment is appended to the reasoning accumulator and is not echoed.
    On the sample stream the live echo of reasoning is "why " then "so",
    the answer text is "yes", and the accumulator, and with it the
    reasoning text returned, is "why soignored". *)
Theorem C8_stream_channel_split :
  pipeline.is_answering pipeline.assembler_start = false
  /\ (forall stream,
         pipeline.is_answering (pipeline.assemble stream) = true
         <-> Exists (fun chunk => Spec.answer_fragment chunk <> "") stream)
  /\ (forall stream chunk,
         pipeline.is_answering (pipeline.assemble stream) = true ->
         Spec.reasoning_fragment chunk <> "" ->
         pipeline.reasoning_parts (pipeline.assemble (stream ++ [chunk]))
         = pipeline.reasoning_parts (pipeline.assemble stream)
           ++ [Spec.reasoning_fragment chunk]
         /\ pipeline.echoed (pipeline.assemble (stream ++ [chunk]))
            = pipeline.echoed (pipeline.assemble stream)
              ++ (if nonempty (Spec.answer_fragment chunk)
                  then [Spec.answer_fragment chunk] else []))
  /\ (let a := pipeline.assemble Samples.split_stream in
      pipeline.reasoning_parts a = ["why "; "so"; "ignored"]
      /\ pipeline.answer_parts a = ["yes"]
      /\ pipeline.echoed a = ["why "; "so"; pipeline.ANSWER_BANNER; "yes"]
      /\ pipeline.reasoning_text a = "why soignored"
      /\ pipeline.answer_text a = "yes").
Proof.
  split; [reflexivity|]. split; [|split].
  - intros stream. unfold pipeline.assemble.
    rewrite fold_feed_is_answering. cbn [pipeline.is_answering pipeline.assembler_start orb].
    rewrite existsb_exists, Exists_exists.
    split; intros (chunk & Hin & Hc); exists chunk;
      (split; [by apply list_elem_of_In || by apply list_elem_of_In in Hin|]);
      by apply nonempty_true.
  - intros stream chunk Ha Hr. rewrite assemble_snoc.
    by apply feed_chunk_after_answer.
  - vm_compute. by repeat split.
Qed.

(* ===================================================================== *)
(** ** The artifact cache *)
(* ===================================================================== *)

Section DictLemmas.

Context {V : Type}.
Implicit Types (d : Dict V) (k : string) (v : V).

Lemma dict_get_set_eq k v d : dict_get k (dict_set k v d) = Some v.
Proof.
  induction d as [|[k' v'] d IH]; cbn.
  - by rewrite String.eqb_refl.
  - destruct (String.eqb k k') eqn:E; cbn; rewrite ?String.eqb_refl, ?E; done.
Qed.

Lemma dict_get_set_ne k k' v d : k <> k' -> dict_get k' (dict_set k v d) = dict_get k' d.
Proof.
  intros Hne. induction d as [|[k0 v0] d IH]; cbn.
  - apply String.eqb_neq in Hne. by rewrite String.eqb_sym, Hne.
  - destruct (String.eqb k k0) eqn:E; cbn.
    + apply String.eqb_eq in E as <-.
      assert (String.eqb k' k = false) as -> by (apply String.eqb_neq; congruence).
      done.
    + by rewrite IH.
Qed.

Lemma dict_get_None_keys k d : dict_get k d = None <-> k ∉ map fst d.
Proof.
  induction d as [|[k' v'] d IH]; cbn.
  - split; [intros _; apply not_elem_of_nil|done].
  - rewrite not_elem_of_cons. destruct (String.eqb k k') eqn:E.
    + apply String.eqb_eq in E. split; [done|]. by intros [? _].
    + apply String.eqb_neq in E. rewrite IH. tauto.
Qed.

Lemma dict_set_fresh k v d : dict_get k d = None -> dict_set k v d = d ++ [(k, v)].
Proof.
  induction d as [|[k' v'] d IH]; cbn; [done|].
  destruct (String.eqb k k'); [done|]. intros H. by rewrite IH.
Qed.

Lemma dict_set_keys_present k v v0 d :
  dict_get k d = Some v0 -> map fst (dict_set k v d) = map fst d.
Proof.
  induction d as [|[k' v'] d IH]; cbn; [done|].
  destruct (String.eqb k k') eqn:E; cbn.
  - apply String.eqb_eq in E as <-. done.
  - intros H. by rewrite IH.
Qed.

Lemma dict_set_elem kv k v d : kv ∈ dict_set k v d -> kv = (k, v) \/ kv ∈ d.
Proof.
  induction d as [|[k' v'] d IH]; cbn.
  - rewrite list_elem_of_singleton. by left.
  - destruct (String.eqb k k'); rewrite !elem_of_cons; [tauto|].
    intros [->|H]; [tauto|]. destruct (IH H); tauto.
Qed.

End DictLemmas.

Lemma cache_wf_nil : Run.cache_wf [].
Proof. split; constructor. Qed.

Lemma cache_wf_set cache record :
  Run.cache_wf cache -> rec_name record <> "" ->
  Run.cache_wf (dict_set (py_lower (rec_name record)) record cache).
Proof.
  intros [Hall Hnodup] Hname. split.
  - apply Forall_forall. intros kv Hin.
    apply dict_set_elem in Hin as [->|Hin]; [done|].
    by apply (proj1 (Forall_forall _ _) Hall).
  - destruct (dict_get (py_lower (rec_name record)) cache) as [r0|] eqn:Hget.
    + by rewrite (dict_set_keys_present _ _ _ _ Hget).
    + rewrite (dict_set_fresh _ _ _ Hget), map_app. cbn.
      apply NoDup_app. repeat split; [done| |apply NoDup_singleton].
      intros k Hk Hk'. apply list_elem_of_singleton in Hk' as ->.
      by apply dict_get_None_keys in Hget.
Qed.

Lemma load_lines_wf lines cache :
  Run.cache_wf cache -> Run.cache_wf (describe_external_function.load_lines lines cache).
Proof.
  revert cache. induction lines as [|[record|] lines IH]; intros cache Hwf; cbn; [done| |by apply IH].
  destruct (nonempty (rec_name record)) eqn:Hn; cbn; [|by apply IH].
  apply IH, cache_wf_set; [done|]. by apply nonempty_true.
Qed.

Lemma loaded_wf w : Run.cache_wf (Run.loaded w).
Proof. apply load_lines_wf, cache_wf_nil. Qed.

Lemma load_lines_persisted cache acc :
  Run.cache_wf cache ->
  (forall k, k ∈ map fst cache -> k ∉ map fst acc) ->
  describe_external_function.load_lines (Run.persisted cache) acc = acc ++ cache.
Proof.
  revert acc. induction cache as [|[k r] cache IH]; intros acc [Hall Hnodup] Hdisj; cbn.
  - by rewrite app_nil_r.
  - apply Forall_cons in Hall as [[Hk Hname] Hall]. cbn in Hk, Hname.
    apply NoDup_cons in Hnodup as [Hfresh Hnodup].
    apply nonempty_true in Hname. rewrite Hname. cbn. rewrite <- Hk.
    rewrite dict_set_fresh.
    + rewrite IH; [by rewrite <- app_assoc|by split|].
      intros k' Hk'. rewrite map_app, elem_of_app. cbn.
      rewrite list_elem_of_singleton. intros [Hin| ->]; [|done].
      eapply Hdisj; [|exact Hin]. cbn. by right.
    + apply dict_get_None_keys, Hdisj. cbn. by left.
Qed.

Lemma loaded_persisted w cache :
  Run.cache_wf cache -> Run.loaded (set_cache_file w (Run.persisted cache)) = cache.
Proof.
  intros Hwf. unfold Run.loaded. cbn.
  rewrite load_lines_persisted; [done|done|]. intros k _. apply not_elem_of_nil.
Qed.

Section DescribeExternal.

Variables (entry : Dict string) (address name : string) (w : World).
Hypothesis Haddress : dict_get "address" entry = Some address.
Hypothesis Hname : dict_get "name" entry = Some name.

Lemma describe_external_hit cached :
  describe_external_function.cache_lookup (Run.loaded w) name = Some cached ->
  describe_external_function.describe_external_function entry w
  = (Ok (rec_markdown cached),
     if mem_str address (rec_addresses cached) then w
     else set_cache_file w
            (Run.persisted
               (dict_set (py_lower name)
                  (mkRecord (rec_name cached) (rec_markdown cached)
                            (rec_addresses cached ++ [address]))
                  (Run.loaded w)))).
Proof using Haddress Hname.
  intros Hhit.
  unfold describe_external_function.describe_external_function,
    describe_external_function.load_cache, dict_index.
  rewrite (has_key_get _ _ _ Haddress), (has_key_get _ _ _ Hname), Haddress, Hname.
  unfold_action. cbn. fold (Run.loaded w). rewrite Hhit.
  unfold describe_external_function.cache_update, describe_external_function.write_cache.
  unfold describe_external_function.cache_lookup in Hhit.
  destruct (mem_str address (rec_addresses cached)) eqn:Hmem; cbn; [done|].
  unfold_action. by rewrite Hhit, Hmem.
Qed.

Lemma describe_external_miss :
  describe_external_function.cache_lookup (Run.loaded w) name = None ->
  describe_external_function.describe_external_function entry w
  = let c := mkConversation DescribeExternal name address None in
    match Run.and_then (Run.reply_of w c) extract_markdown with
    | Ok markdown =>
        (Ok markdown,
         set_cache_file (Run.asked w c)
           (Run.persisted
              (dict_set (py_lower name) (mkRecord name markdown [address])
                        (Run.loaded w))))
    | Err e => (Err e, Run.asked w c)
    end.
Proof using Haddress Hname.
  intros Hmiss.
  unfold describe_external_function.describe_external_function,
    describe_external_function.load_cache, describe_external_function.build_messages,
    dict_index.
  rewrite (has_key_get _ _ _ Haddress), (has_key_get _ _ _ Hname), Haddress, Hname.
  unfold_action. cbn. fold (Run.loaded w). rewrite Hmiss.
  unfold Run.reply_of.
  destruct (oracle w _ _) as [r|]; cbn; [|done].
  destruct (extract_markdown r) as [markdown|e]; cbn; [|done].
  unfold describe_external_function.cache_update, describe_external_function.write_cache.
  unfold describe_external_function.cache_lookup in Hmiss.
  unfold_action. by rewrite Hmiss.
Qed.

End DescribeExternal.

Lemma entry_of_address address name : dict_get "address" (entry_of address name) = Some address.
Proof. reflexivity. Qed.

Lemma entry_of_name address name : dict_get "name" (entry_of address name) = Some name.
Proof. reflexivity. Qed.

Lemma mem_str_singleton (x y : string) : mem_str x [y] = bool_decide (x = y).
Proof.
  unfold mem_str. cbn. rewrite orb_false_r.
  case_bool_decide as H; [by apply String.eqb_eq|by apply String.eqb_neq].
Qed.




(* ===================================================================== *)
(** ** Validation at step entry *)
(* ===================================================================== *)

Lemma missing_key_guard (k : string) (entry : Dict string) :
  has_key "address" entry = false \/ has_key k entry = false ->
  negb (has_key "address" entry) || negb (has_key k entry) = true.
Proof. intros [-> | ->]; [reflexivity|apply orb_true_r]. Qed.

Lemma and_then_not_value_error {A B : Type} (r : Result A) (f : A -> Result B) :
  Run.not_value_error r -> (forall a, Run.not_value_error (f a)) ->
  Run.not_value_error (Run.and_then r f).
Proof.
  intros Hr Hf. destruct r as [a|e]; cbn; [apply Hf|].
  intros msg [= ->]. by apply (Hr msg).
Qed.

Lemma reply_not_value_error w c : Run.not_value_error (Run.reply_of w c).
Proof. unfold Run.reply_of. by destruct (oracle w _ c). Qed.

Lemma extract_markdown_not_value_error responses :
  Run.not_value_error (extract_markdown responses).
Proof.
  unfold extract_markdown. by destruct (last (assistant_contents responses)).
Qed.

Lemma extract_json_not_value_error responses :
  Run.not_value_error (analyze_memory_param.extract_json responses).
Proof.
  unfold analyze_memory_param.extract_json.
  induction (rev (assistant_contents responses)) as [|raw raws IH]; cbn; [done|].
  by destruct (json_loads raw) as [[| | | | | |d]|].
Qed.

Lemma format_markdown_not_value_error result :
  Run.not_value_error (analyze_memory_param.format_markdown result).
Proof.
  unfold analyze_memory_param.format_markdown. intros msg.
  repeat match goal with
         | |- context [match ?x with Ok _ => _ | Err _ => _ end] => destruct x
         end; discriminate.
Qed.

Lemma validated_steps_name entry w :
  has_key "address" entry = true -> has_key "name" entry = true ->
  Run.not_value_error
    (fst (describe_internal_function.describe_internal_function entry w))
  /\ Run.not_value_error
       (fst (describe_external_function.describe_external_function entry w)).
Proof.
  intros [address Ha]%has_key_true [name Hn]%has_key_true. split.
  - rewrite (describe_internal_function_eq entry address name w Ha Hn). cbn.
    apply and_then_not_value_error;
      [apply reply_not_value_error|apply extract_markdown_not_value_error].
  - destruct (describe_external_function.cache_lookup (Run.loaded w) name)
      as [cached|] eqn:Hlookup.
    + by rewrite (describe_external_hit entry address name w Ha Hn cached Hlookup).
    + rewrite (describe_external_miss entry address name w Ha Hn Hlookup). cbn zeta.
      pose proof (and_then_not_value_error
                    (Run.reply_of w (mkConversation DescribeExternal name address None))
                    extract_markdown (reply_not_value_error _ _)
                    extract_markdown_not_value_error) as H.
      destruct (Run.and_then _ _) as [markdown|e]; [done|exact H].
Qed.

Lemma validated_steps_func_name target context w :
  has_key "address" target = true -> has_key "func_name" target = true ->
  Run.not_value_error (fst (analyze_memory_param.analyze_memory_param target w))
  /\ Run.not_value_error
       (fst (analyze_memory_param.analyze_memory_param_markdown target w))
  /\ Run.not_value_error
       (fst (analyze_irp_memory_access.analyze_irp_memory_access target context true w)).
Proof.
  intros [address Ha]%has_key_true [name Hn]%has_key_true.
  rewrite (analyze_memory_param_eq target address name w Ha Hn),
    (analyze_memory_param_markdown_eq target address name w Ha Hn),
    (analyze_irp_memory_access_eq target address name w Ha Hn). cbn zeta.
  assert (Hj : Run.not_value_error
                 (Run.and_then
                    (Run.reply_of w (mkConversation AnalyzeMemoryParam name address None))
                    analyze_memory_param.extract_json))
    by (apply and_then_not_value_error;
        [apply reply_not_value_error|apply extract_json_not_value_error]).
  split; [exact Hj|]. split.
  - apply and_then_not_value_error; [exact Hj|apply format_markdown_not_value_error].
  - clear Hj.
    set (c := mkConversation AnalyzeIrpMemoryAccess name address _).
    pose proof (reply_not_value_error w c) as Hr.
    destruct (Run.reply_of w c) as [r|e]; cbn;
      [apply extract_markdown_not_value_error|].
    intros msg [= ->]. by apply (Hr msg).
Qed.

(** C9, as the claim words it, fails: a FunctionRef whose address and
    name are present but empty raises no validation error; the step goes
    on to the backend with the empty name and address. *)
Lemma C9_empty_fields_pass_validation :
  let w0 := Samples.fresh Samples.numbered_backend in
  describe_internal_function.describe_internal_function (entry_of "" "") w0
  = (Ok "reply 0", Run.asked w0 (mkConversation DescribeInternal "" "" None))
  /\ fst (analyze_memory_param.analyze_memory_param (target_of "" "") w0)
     = Err (RuntimeError "未能解析到 JSON 对象")
  /\ requests (snd (analyze_memory_param.analyze_memory_param (target_of "" "") w0))
     = [mkConversation AnalyzeMemoryParam "" "" None].
Proof. vm_compute. by repeat split. Qed.

(** C9, amended: every description step and memory-analysis step raises
    its validation error at entry, with no effect on the world (no
    backend request, no cache or log access), whenever the address key
    or the name key (name for the description steps, func_name for the
    analysis steps) is missing from its input; with both keys present,
    whatever their values, empty ones included, no validation error is
    raised. *)
Theorem C9_validation_is_key_presence :
  (forall entry w,
      has_key "address" entry = false \/ has_key "name" entry = false ->
      describe_internal_function.describe_internal_function entry w
      = (Err (ValueError "entry 必须包含 address 与 name 字段"), w)
      /\ describe_external_function.describe_external_function entry w
         = (Err (ValueError "entry 必须包含 address 与 name 字段"), w))
  /\ (forall target context with_sink w,
         has_key "address" target = false \/ has_key "func_name" target = false ->
         analyze_memory_param.analyze_memory_param target w
         = (Err (ValueError "target 必须包含 address 与 func_name 键"), w)
         /\ analyze_memory_param.analyze_memory_param_markdown target w
            = (Err (ValueError "target 必须包含 address 与 func_name 键"), w)
         /\ analyze_irp_memory_access.analyze_irp_memory_access target context with_sink w
            = (Err (ValueError "target 必须包含 address 与 func_name 键"), w))
  /\ (forall entry w,
         has_key "address" entry = true -> has_key "name" entry = true ->
         Run.not_value_error
           (fst (describe_internal_function.describe_internal_function entry w))
         /\ Run.not_value_error
              (fst (describe_external_function.describe_external_function entry w)))
  /\ (forall target context w,
         has_key "address" target = true -> has_key "func_name" target = true ->
         Run.not_value_error (fst (analyze_memory_param.analyze_memory_param target w))
         /\ Run.not_value_error
              (fst (analyze_memory_param.analyze_memory_param_markdown target w))
         /\ Run.not_value_error
              (fst (analyze_irp_memory_access.analyze_irp_memory_access
                      target context true w))).
Proof.
  split; [|split; [|split]].
  - intros entry w Hmissing.
    unfold describe_internal_function.describe_internal_function,
      describe_external_function.describe_external_function.
    by rewrite (missing_key_guard _ _ Hmissing).
  - intros target context with_sink w Hmissing.
    unfold analyze_memory_param.analyze_memory_param_markdown, bind,
      analyze_memory_param.analyze_memory_param,
      analyze_irp_memory_access.analyze_irp_memory_access.
    by rewrite (missing_key_guard _ _ Hmissing).
  - apply validated_steps_name.
  - apply validated_steps_func_name.
Qed.

Lemma C9_validation_is_key_presence_witness :
  let w0 := Samples.fresh Samples.numbered_backend in
  describe_internal_function.describe_internal_function [("name", "f")] w0
  = (Err (ValueError "entry 必须包含 address 与 name 字段"), w0)
  /\ Run.not_value_error
       (fst (describe_internal_function.describe_internal_function (entry_of "" "") w0)).
Proof.
  intros w0. split.
  - apply (proj1 C9_validation_is_key_presence [("name", "f")] w0). by left.
  - by apply (proj1 (proj2 (proj2 C9_validation_is_key_presence)) (entry_of "" "") w0).
Defined.

(* ===================================================================== *)
(** ** Describing a child *)
(* ===================================================================== *)

(** C5, as the claim words it, fails for an internal child: with sub_1
    in the cache, its description still goes to the backend and the
    backend's text, not the cached one, is returned. *)
Lemma C5_internal_description_is_not_cached :
  describe_external_function.cache_lookup (Run.loaded Samples.cached_world) "sub_1"
  = Some (mkRecord "sub_1" "cached text" ["0x1"])
  /\ describe_internal_function.describe_internal_function
       (entry_of "0x1" "sub_1") Samples.cached_world
     = (Ok "reply 0",
        Run.asked Samples.cached_world (mkConversation DescribeInternal "sub_1" "0x1" None)).
Proof. split; vm_compute; reflexivity. Qed.

(** C5, amended: only the description of an external child is cached.
    For an external child whose name is in the cache the call returns the
    cached markdown and submits no conversation.  The description of an
    internal child never consults the cache: every call submits one
    conversation, returns what is extracted from its reply, and leaves
    the cache file as it was. *)
Theorem C5_only_external_descriptions_are_cached :
  (forall entry address name w cached,
      dict_get "address" entry = Some address ->
      dict_get "name" entry = Some name ->
      describe_external_function.cache_lookup (Run.loaded w) name = Some cached ->
      fst (describe_external_function.describe_external_function entry w)
      = Ok (rec_markdown cached)
      /\ requests (snd (describe_external_function.describe_external_function entry w))
         = requests w)
  /\ (forall entry address name w,
         dict_get "address" entry = Some address ->
         dict_get "name" entry = Some name ->
         let c := mkConversation DescribeInternal name address None in
         let r := describe_internal_function.describe_internal_function entry w in
         fst r = Run.and_then (Run.reply_of w c) extract_markdown
         /\ requests (snd r) = requests w ++ [c]
         /\ cache_file (snd r) = cache_file w).
Proof.
  split.
  - intros entry address name w cached Ha Hn Hhit.
    rewrite (describe_external_hit entry address name w Ha Hn cached Hhit). cbn.
    split; [reflexivity|]. by destruct (mem_str address (rec_addresses cached)).
  - intros entry address name w Ha Hn.
    rewrite (describe_internal_function_eq entry address name w Ha Hn). cbn.
    by repeat split.
Qed.

Lemma C5_only_external_descriptions_are_cached_witness :
  fst (describe_external_function.describe_external_function
         (entry_of "0x9" "SUB_1") Samples.cached_world) = Ok "cached text"
  /\ requests (snd (describe_external_function.describe_external_function
                      (entry_of "0x9" "SUB_1") Samples.cached_world)) = [].
Proof.
  apply (proj1 C5_only_external_descriptions_are_cached
           (entry_of "0x9" "SUB_1") "0x9" "SUB_1" Samples.cached_world
           (mkRecord "sub_1" "cached text" ["0x1"]));
    vm_compute; reflexivity.
Defined.

Lemma describe_child_internal child address name w :
  pipeline.is_external child = false ->
  dict_get "address" child = Some address ->
  dict_get "name" child = Some name ->
  pipeline.describe_child child w
  = let asked_description :=
      Run.asked w (mkConversation DescribeInternal name address None) in
    match Run.and_then (Run.reply_of w (mkConversation DescribeInternal name address None))
                       extract_markdown with
    | Err e => (Err e, asked_description)
    | Ok desc =>
        if pipeline.has_memory_marker desc then
          (Run.and_then
             (Run.and_then
                (Run.and_then
                   (Run.reply_of asked_description
                      (mkConversation AnalyzeMemoryParam name address None))
                   analyze_memory_param.extract_json)
                analyze_memory_param.format_markdown)
             (fun mem_md => Ok (desc +:+ nl +:+ nl +:+ "---" +:+ nl +:+ mem_md, mem_md)),
           Run.asked asked_description
             (mkConversation AnalyzeMemoryParam name address None))
        else (Ok (desc, ""), asked_description)
    end.
Proof.
  intros Hext Ha Hn. unfold pipeline.describe_child, dict_index.
  rewrite Hext, Ha, Hn. unfold bind at 1 2 3. unfold lift at 1 2.
  rewrite (describe_internal_function_eq _ address name w
             (entry_of_address _ _) (entry_of_name _ _)).
  cbn zeta.
  destruct (Run.and_then _ extract_markdown) as [desc|e]; [|reflexivity].
  destruct (pipeline.has_memory_marker desc); [|reflexivity].
  unfold bind, lift, ret.
  rewrite (analyze_memory_param_markdown_eq (target_of address name) address name _
             eq_refl eq_refl).
  cbn zeta.
  by destruct (Run.and_then (Run.and_then _ _) _).
Qed.

Lemma describe_child_external child address name w :
  pipeline.is_external child = true ->
  dict_get "address" child = Some address ->
  dict_get "name" child = Some name ->
  pipeline.describe_child child w
  = let r := describe_external_function.describe_external_function
               (entry_of address name) w in
    (Run.and_then (fst r) (fun desc => Ok (desc, "")), snd r).
Proof.
  intros Hext Ha Hn. unfold pipeline.describe_child, dict_index.
  rewrite Hext, Ha, Hn. unfold bind, lift, ret. cbn zeta.
  by destruct (describe_external_function.describe_external_function _ w) as [[desc|e] w'].
Qed.

Lemma describe_external_requests entry address name w :
  dict_get "address" entry = Some address ->
  dict_get "name" entry = Some name ->
  let w' := snd (describe_external_function.describe_external_function entry w) in
  requests w' = requests w
  \/ requests w' = requests w ++ [mkConversation DescribeExternal name address None].
Proof.
  intros Ha Hn.
  destruct (describe_external_function.cache_lookup (Run.loaded w) name)
    as [cached|] eqn:Hlookup.
  - rewrite (describe_external_hit entry address name w Ha Hn cached Hlookup). cbn.
    left. by destruct (mem_str address (rec_addresses cached)).
  - rewrite (describe_external_miss entry address name w Ha Hn Hlookup). cbn zeta.
    right. by destruct (Run.and_then _ _).
Qed.




(* ===================================================================== *)
(** ** The retry of the discover step *)
(* ===================================================================== *)

Lemma print_responses_eq responses w :
  find_iocreatedevice_refs.print_responses responses w
  = (Ok tt,
     set_stdout w
       (stdout w ++ map find_iocreatedevice_refs.response_line
                        (filter (fun resp => content resp <> "") responses))).
Proof.
  revert w. induction responses as [|resp responses IH]; intros w.
  - cbn. rewrite app_nil_r. by destruct w.
  - cbn [find_iocreatedevice_refs.print_responses]. unfold bind at 1.
    rewrite filter_cons.
    destruct (nonempty (content resp)) eqn:Hc.
    + apply nonempty_true in Hc. rewrite decide_True by done.
      unfold print at 1. rewrite IH. cbn. by rewrite <- app_assoc.
    + apply nonempty_false in Hc. rewrite decide_False by (intros H; by apply H).
      unfold ret at 1. by rewrite IH.
Qed.

Lemma extract_json_result_error responses e :
  find_iocreatedevice_refs.extract_json_result responses = Err e ->
  e = RuntimeError "未能从助手响应中解析到 JSON 列表".
Proof.
  unfold find_iocreatedevice_refs.extract_json_result.
  induction (rev (assistant_contents responses)) as [|raw raws IH]; cbn.
  - by intros [= <-].
  - destruct (negb (nonempty (py_strip raw))); [exact IH|].
    destruct (find_iocreatedevice_refs.parse_reply (py_strip raw)); [done|exact IH].
Qed.

Lemma attempts_step remaining attempt w :
  find_iocreatedevice_refs.attempts (S remaining) attempt w
  = let c := find_iocreatedevice_refs.build_messages in
    match oracle w (length (requests w)) c with
    | None => (Err (BackendError "run"), Run.asked w c)
    | Some final_responses =>
        match find_iocreatedevice_refs.extract_json_result final_responses with
        | Ok l => (Ok l, Run.asked w c)
        | Err e =>
            let w1 := set_stdout (Run.asked w c)
                        (stdout w ++ Run.failure_output final_responses) in
            if 2 <=? attempt then (Err e, w1)
            else find_iocreatedevice_refs.attempts remaining (S attempt)
                   (set_slept
                      (set_stdout w1
                         (stdout w1 ++ [find_iocreatedevice_refs.retry_notice attempt]))
                      (slept w ++ [30]))
        end
    end.
Proof.
  cbn [find_iocreatedevice_refs.attempts]. unfold bind at 1. unfold bot_run.
  cbn zeta.
  destruct (oracle w _ _) as [final_responses|]; [|reflexivity].
  destruct (find_iocreatedevice_refs.extract_json_result final_responses)
    as [l|e] eqn:Hextract; [reflexivity|].
  rewrite (extract_json_result_error _ _ Hextract).
  unfold bind at 1. unfold print at 1. unfold bind at 1.
  rewrite print_responses_eq. cbn [stdout set_stdout set_requests].
  unfold Run.failure_output. rewrite <- app_assoc. cbn [app].
  destruct (2 <=? attempt); [reflexivity|].
  unfold bind, print, sleep. reflexivity.
Qed.




(* ===================================================================== *)
(** ** The children of a handler *)
(* ===================================================================== *)

Lemma sections_of_described child desc mem_code outcomes :
  Run.sections_of ((child, Some (desc, mem_code)) :: outcomes)
  = pipeline.format_child_section child desc :: Run.sections_of outcomes.
Proof. reflexivity. Qed.

Lemma sections_of_failed child outcomes :
  Run.sections_of ((child, None) :: outcomes) = Run.sections_of outcomes.
Proof. reflexivity. Qed.

Lemma mem_codes_of_described child desc mem_code outcomes :
  Run.mem_codes_of ((child, Some (desc, mem_code)) :: outcomes)
  = (if nonempty mem_code
     then ["### " +:+ pipeline.fmt_get "name" child +:+ " 可控内存参数" +:+ nl
           +:+ py_strip mem_code]
     else [])
    ++ Run.mem_codes_of outcomes.
Proof. unfold Run.mem_codes_of. cbn. by destruct (nonempty mem_code). Qed.

Lemma describe_children_eq children sections codes w :
  pipeline.describe_children children sections codes w
  = (Ok (sections ++ Run.sections_of (Run.child_outcomes children w),
         codes ++ Run.mem_codes_of (Run.child_outcomes children w)),
     Run.after_children children w).
Proof.
  revert sections codes w.
  induction children as [|child rest IH]; intros sections codes w.
  - cbn. by rewrite !app_nil_r.
  - cbn [pipeline.describe_children Run.child_outcomes Run.after_children].
    unfold bind at 1. unfold catch, bind at 1. unfold ret at 1 2.
    destruct (pipeline.describe_child child w) as [[[desc mem_code]|e] w1]; cbn [fst snd].
    + rewrite IH, sections_of_described, mem_codes_of_described.
      destruct (nonempty mem_code); by rewrite <- ?app_assoc.
    + by rewrite IH.
Qed.

Lemma sections_of_app o1 o2 :
  Run.sections_of (o1 ++ o2) = Run.sections_of o1 ++ Run.sections_of o2.
Proof. unfold Run.sections_of. apply omap_app. Qed.

Lemma child_outcomes_app before after w :
  Run.child_outcomes (before ++ after) w
  = Run.child_outcomes before w
    ++ Run.child_outcomes after (Run.after_children before w).
Proof.
  revert w. induction before as [|child before IH]; intros w; [reflexivity|].
  cbn. by rewrite IH.
Qed.

Lemma sections_of_nil outcomes :
  Run.sections_of outcomes = [] <-> Forall (fun o => snd o = None) outcomes.
Proof.
  induction outcomes as [|[child [[desc mem_code]|]] outcomes IH].
  - split; [constructor|reflexivity].
  - split; [discriminate|]. intros H. by apply Forall_cons in H as [? _].
  - rewrite sections_of_failed, IH, Forall_cons. cbn. tauto.
Qed.

Lemma sections_start_with_hash outcomes :
  Forall (fun section => exists rest, section = String "#" rest)
         (Run.sections_of outcomes).
Proof.
  induction outcomes as [|[child [[desc mem_code]|]] outcomes IH];
    [constructor| |exact IH].
  rewrite sections_of_described.
  constructor; [|exact IH]. eexists. reflexivity.
Qed.

Lemma child_block_placeholder sections :
  Forall (fun section => exists rest, section = String "#" rest) sections ->
  pipeline.child_block_of sections = pipeline.NO_CHILD_DESCRIPTIONS <-> sections = [].
Proof.
  intros Hhash. destruct sections as [|section sections]; [done|].
  apply Forall_cons in Hhash as [[rest ->] _].
  split; [|discriminate].
  unfold pipeline.child_block_of, pipeline.NO_CHILD_DESCRIPTIONS.
  destruct sections; cbn; discriminate.
Qed.


(* ===================================================================== *)
(** ** One caller, and the loop over the callers *)
(* ===================================================================== *)

Lemma analyze_parent_memory_eq target w :
  pipeline.analyze_parent_memory target w
  = let r := analyze_memory_param.analyze_memory_param_markdown target w in
    (Ok (Run.or_placeholder (fst r) pipeline.PARENT_MEMORY_FAILED), snd r).
Proof.
  unfold pipeline.analyze_parent_memory, catch. cbn zeta.
  by destruct (analyze_memory_param.analyze_memory_param_markdown target w) as [[md|e] w'].
Qed.

Lemma analyze_irp_memory_section_eq target context w :
  pipeline.analyze_irp_memory_section target context w
  = let r := analyze_irp_memory_access.analyze_irp_memory_access target context true w in
    (Ok (Run.or_placeholder (fst r) pipeline.IRP_FAILED), snd r).
Proof.
  unfold pipeline.analyze_irp_memory_section, catch. cbn zeta.
  by destruct (analyze_irp_memory_access.analyze_irp_memory_access target context true w)
    as [[md|e] w'].
Qed.

Lemma process_major_function_eq caller handler address name w :
  dict_get "address" handler = Some address ->
  dict_get "func_name" handler = Some name ->
  pipeline.process_major_function caller handler w
  = let target := target_of address name in
    let listed := list_subfunctions.list_subfunctions target w in
    let children := match fst listed with Ok l => l | Err _ => [] end in
    let outcomes := Run.child_outcomes children (snd listed) in
    let child_block := pipeline.child_block_of (Run.sections_of outcomes) in
    let parent := analyze_memory_param.analyze_memory_param_markdown target
                    (Run.after_children children (snd listed)) in
    let parent_mem_md := Run.or_placeholder (fst parent) pipeline.PARENT_MEMORY_FAILED in
    let context := pipeline.combined_context_of child_block parent_mem_md
                     (Run.mem_codes_of outcomes) in
    let irp := analyze_irp_memory_access.analyze_irp_memory_access target (Some context)
                 true (set_transcript_sink (snd parent) []) in
    (Ok (pipeline.report_of caller handler child_block parent_mem_md
           (Run.or_placeholder (fst irp) pipeline.IRP_FAILED),
         transcript_sink (snd irp), Run.mem_codes_of outcomes),
     snd irp).
Proof.
  intros Ha Hn. unfold pipeline.process_major_function, dict_index.
  rewrite Ha, Hn. unfold bind at 1 2 3. unfold lift at 1 2. unfold catch at 1.
  cbn zeta.
  destruct (list_subfunctions.list_subfunctions (target_of address name) w)
    as [[children|e] w1]; cbn [fst snd].
  - unfold bind at 1. rewrite describe_children_eq. cbn [app].
    unfold bind at 1. rewrite analyze_parent_memory_eq. cbn zeta.
    unfold bind at 1. unfold pipeline.new_transcript_sink at 1.
    unfold bind at 1. rewrite analyze_irp_memory_section_eq. cbn zeta.
    reflexivity.
  - unfold ret at 1.
    unfold bind at 1. rewrite describe_children_eq. cbn [app].
    unfold bind at 1. rewrite analyze_parent_memory_eq. cbn zeta.
    unfold bind at 1. unfold pipeline.new_transcript_sink at 1.
    unfold bind at 1. rewrite analyze_irp_memory_section_eq. cbn zeta.
    reflexivity.
Qed.

Lemma catch_unit_total (m : Action unit) w :
  fst (catch m (fun _ => ret tt) w) = Ok tt.
Proof. unfold catch, ret. by destruct (m w) as [[[]|e] w']. Qed.

Lemma rename_and_set_prototype_total handler w :
  fst (pipeline.rename_and_set_prototype handler w) = Ok tt.
Proof.
  unfold pipeline.rename_and_set_prototype. unfold bind at 1.
  match goal with
  | |- context [match catch ?m ?h w with _ => _ end] =>
      pose proof (catch_unit_total m w) as Hfirst;
      destruct (catch m h w) as [r w1]
  end.
  cbn in Hfirst. subst r. apply catch_unit_total.
Qed.

Lemma extract_json_object_keys responses parsed :
  analyze_major_function.extract_json_object responses = Ok parsed ->
  has_key "address" parsed = true /\ has_key "func_name" parsed = true.
Proof.
  unfold analyze_major_function.extract_json_object.
  induction (rev (assistant_contents responses)) as [|raw raws IH]; cbn; [done|].
  destruct (json_loads raw) as [[| | | | | |d]|]; try exact IH.
  destruct (has_key "address" d && has_key "func_name" d) eqn:Hkeys; [|done].
  intros [= <-]. by apply andb_true_iff in Hkeys.
Qed.

Lemma as_str_dict_get parsed typed_dict k :
  as_str_dict parsed = Some typed_dict ->
  has_key k parsed = true -> exists v, dict_get k typed_dict = Some v.
Proof.
  revert typed_dict. induction parsed as [|[k' v] parsed IH]; intros typed_dict; cbn.
  - intros _ H. discriminate H.
  - destruct v; try done.
    destruct (as_str_dict parsed) as [r|]; [|done]. intros [= <-].
    unfold has_key. cbn. destruct (String.eqb k k'); [eauto|].
    intros H. by apply (IH r).
Qed.

Lemma resolve_handler_eq caller w :
  pipeline.resolve_handler caller w
  = let r := analyze_major_function.analyze_major_function_target caller w in
    (Ok (match fst r with Ok handler => Some handler | Err _ => None end), snd r).
Proof.
  unfold pipeline.resolve_handler, catch, bind, ret. cbn zeta.
  by destruct (analyze_major_function.analyze_major_function_target caller w)
    as [[handler|e] w'].
Qed.

Lemma resolved_handler_keys caller w handler :
  fst (pipeline.resolve_handler caller w) = Ok (Some handler) ->
  exists address name,
    dict_get "address" handler = Some address
    /\ dict_get "func_name" handler = Some name.
Proof.
  rewrite resolve_handler_eq. cbn.
  destruct (fst (analyze_major_function.analyze_major_function_target caller w))
    as [h|e] eqn:Hstep; [|done].
  intros [= ->]. revert Hstep.
  unfold analyze_major_function.analyze_major_function_target.
  destruct (negb (has_key "address" caller) || negb (has_key "func_name" caller));
    [done|].
  unfold bind, lift, typed.
  destruct (analyze_major_function.build_messages caller) as [c|e]; [|done].
  destruct (bot_run c w) as [[responses|e] w1]; [|done].
  destruct (analyze_major_function.extract_json_object responses) as [parsed|e] eqn:Hx;
    [|done].
  destruct (as_str_dict parsed) as [typed_dict|] eqn:Ht; [|done].
  cbn. intros [= ->].
  apply extract_json_object_keys in Hx as [Ha Hn].
  destruct (as_str_dict_get _ _ "address" Ht Ha) as [address Haddress].
  destruct (as_str_dict_get _ _ "func_name" Ht Hn) as [name Hname].
  eauto.
Qed.

Lemma caller_report_resolved caller handler w :
  fst (pipeline.resolve_handler caller w) = Ok (Some handler) ->
  Run.caller_report caller w
  = let r := pipeline.process_major_function caller handler
               (Run.enumeration_world caller handler w) in
    (Run.and_then (fst r) (fun report => Ok (Some report)), snd r).
Proof.
  intros Hres. unfold Run.caller_report, Run.enumeration_world. unfold bind at 1.
  destruct (pipeline.resolve_handler caller w) as [r w1]. cbn in Hres. subst r.
  unfold bind at 1. cbn [snd].
  pose proof (rename_and_set_prototype_total handler w1) as Htotal.
  destruct (pipeline.rename_and_set_prototype handler w1) as [r w2].
  cbn in Htotal. subst r. cbn [snd]. unfold bind, ret. cbn zeta.
  by destruct (pipeline.process_major_function caller handler w2) as [[report|e] w3].
Qed.

Lemma main_loop_cons caller rest reports transcripts codes w :
  pipeline.main_loop (caller :: rest) reports transcripts codes w
  = match Run.caller_report caller w with
    | (Ok (Some (report, ts, ms)), w') =>
        pipeline.main_loop rest (reports ++ [report]) (transcripts ++ ts)
                           (codes ++ ms) w'
    | (Ok None, w') => pipeline.main_loop rest reports transcripts codes w'
    | (Err e, w') => (Err e, w')
    end.
Proof.
  cbn [pipeline.main_loop]. unfold Run.caller_report. unfold bind at 1 4.
  destruct (pipeline.resolve_handler caller w) as [[[handler|]|e] w1]; [|done|done].
  unfold bind at 1 3.
  destruct (pipeline.rename_and_set_prototype handler w1) as [[[]|e] w2]; [|done].
  unfold bind at 1 2.
  by destruct (pipeline.process_major_function caller handler w2)
    as [[[[report ts] ms]|e] w3].
Qed.

Lemma caller_section caller handler address name w :
  fst (pipeline.resolve_handler caller w) = Ok (Some handler) ->
  dict_get "address" handler = Some address ->
  dict_get "func_name" handler = Some name ->
  let target := target_of address name in
  let listed := list_subfunctions.list_subfunctions target
                  (Run.enumeration_world caller handler w) in
  let children := match fst listed with Ok l => l | Err _ => [] end in
  let outcomes := Run.child_outcomes children (snd listed) in
  let child_block := pipeline.child_block_of (Run.sections_of outcomes) in
  let parent := analyze_memory_param.analyze_memory_param_markdown target
                  (Run.after_children children (snd listed)) in
  let parent_mem_md := Run.or_placeholder (fst parent) pipeline.PARENT_MEMORY_FAILED in
  let context := pipeline.combined_context_of child_block parent_mem_md
                   (Run.mem_codes_of outcomes) in
  let irp := analyze_irp_memory_access.analyze_irp_memory_access target (Some context)
               true (set_transcript_sink (snd parent) []) in
  Run.caller_report caller w
  = (Ok (Some (pipeline.report_of caller handler child_block parent_mem_md
                 (Run.or_placeholder (fst irp) pipeline.IRP_FAILED),
               transcript_sink (snd irp), Run.mem_codes_of outcomes)),
     snd irp).
Proof.
  intros Hres Ha Hn. cbn zeta.
  rewrite (caller_report_resolved caller handler w Hres). cbn zeta.
  by rewrite (process_major_function_eq caller handler address name _ Ha Hn).
Qed.

Lemma caller_section_exists caller handler w :
  fst (pipeline.resolve_handler caller w) = Ok (Some handler) ->
  exists child_block parent_mem_md irp_md transcripts codes,
    Run.caller_report caller w
    = (Ok (Some (pipeline.report_of caller handler child_block parent_mem_md irp_md,
                 transcripts, codes)),
       snd (Run.caller_report caller w)).
Proof.
  intros Hres.
  destruct (resolved_handler_keys caller w handler Hres) as (address & name & Ha & Hn).
  rewrite (caller_section caller handler address name w Hres Ha Hn). cbn [snd].
  by do 5 eexists.
Qed.

Lemma irp_requests target address name context w :
  dict_get "address" target = Some address ->
  dict_get "func_name" target = Some name ->
  requests (snd (analyze_irp_memory_access.analyze_irp_memory_access
                   target (Some context) true w))
  = requests w
    ++ [mkConversation AnalyzeIrpMemoryAccess name address
          (if nonempty context then Some context else None)].
Proof.
  intros Ha Hn. rewrite (analyze_irp_memory_access_eq target address name w Ha Hn).
  cbn zeta. by destruct (Run.reply_of w _).
Qed.

Lemma caller_section_without_children caller handler address name w :
  fst (pipeline.resolve_handler caller w) = Ok (Some handler) ->
  dict_get "address" handler = Some address ->
  dict_get "func_name" handler = Some name ->
  let target := target_of address name in
  let listed := list_subfunctions.list_subfunctions target
                  (Run.enumeration_world caller handler w) in
  is_ok (fst listed) = false ->
  let parent := analyze_memory_param.analyze_memory_param_markdown target (snd listed) in
  let parent_mem_md := Run.or_placeholder (fst parent) pipeline.PARENT_MEMORY_FAILED in
  let context := pipeline.combined_context_of pipeline.NO_CHILD_DESCRIPTIONS
                   parent_mem_md [] in
  let irp := analyze_irp_memory_access.analyze_irp_memory_access target (Some context)
               true (set_transcript_sink (snd parent) []) in
  fst (Run.caller_report caller w)
  = Ok (Some (pipeline.report_of caller handler pipeline.NO_CHILD_DESCRIPTIONS
                parent_mem_md (Run.or_placeholder (fst irp) pipeline.IRP_FAILED),
              transcript_sink (snd irp), []))
  /\ requests (snd (Run.caller_report caller w))
     = requests (Run.enumeration_world caller handler w)
       ++ [mkConversation ListSubfunctions name address None;
           mkConversation AnalyzeMemoryParam name address None;
           mkConversation AnalyzeIrpMemoryAccess name address
             (if nonempty context then Some context else None)].
Proof.
  intros Hres Ha Hn target listed Hfail parent parent_mem_md context irp.
  rewrite (caller_section caller handler address name w Hres Ha Hn). cbn zeta.
  fold target. fold listed.
  destruct (fst listed) as [children|e] eqn:Hlisted; [discriminate|].
  cbn [Run.child_outcomes Run.after_children Run.sections_of Run.mem_codes_of omap
         pipeline.child_block_of].
  fold parent. fold parent_mem_md. fold context. fold irp. cbn [fst snd].
  split; [reflexivity|].
  subst irp. rewrite (irp_requests target address name context _ eq_refl eq_refl).
  cbn [requests set_transcript_sink].
  subst parent.
  rewrite (analyze_memory_param_markdown_eq target address name _ eq_refl eq_refl).
  cbn [snd requests Run.asked set_requests].
  subst listed.
  rewrite (list_subfunctions_eq target address name _ eq_refl eq_refl).
  cbn [snd requests Run.asked set_requests].
  by rewrite <- !app_assoc.
Qed.


(* ===================================================================== *)
(** ** Further properties: the run as a whole *)
(* ===================================================================== *)

Lemma caller_report_unresolved caller w :
  fst (pipeline.resolve_handler caller w) = Ok None ->
  Run.caller_report caller w = (Ok None, snd (pipeline.resolve_handler caller w)).
Proof.
  intros Hres. unfold Run.caller_report. unfold bind at 1.
  destruct (pipeline.resolve_handler caller w) as [r w1]. cbn in Hres. by subst r.
Qed.

Lemma resolve_handler_cases caller w :
  fst (pipeline.resolve_handler caller w) = Ok None
  \/ exists handler, fst (pipeline.resolve_handler caller w) = Ok (Some handler).
Proof.
  rewrite resolve_handler_eq. cbn.
  destruct (fst (analyze_major_function.analyze_major_function_target caller w));
    [right; eauto|by left].
Qed.




(* ===================================================================== *)
(** ** What the steps leave alone *)
(* ===================================================================== *)

Lemma bind_eq {A B : Type} (m : Action A) (k : A -> Action B) w :
  bind m k w
  = match m w with
    | (Ok a, w1) => k a w1
    | (Err e, w1) => (Err e, w1)
    end.
Proof. reflexivity. Qed.

Section FrameBasics.

Context {X : Type} (f : World -> X).

Lemma preserves_ret {A : Type} (a : A) : Observe.preserves f (ret a).
Proof. by intros w. Qed.

Lemma preserves_raise {A : Type} (e : Exn) : Observe.preserves f (@raise A e).
Proof. by intros w. Qed.

Lemma preserves_lift {A : Type} (r : Result A) : Observe.preserves f (lift r).
Proof. by intros w. Qed.

Lemma preserves_bind {A B : Type} (m : Action A) (k : A -> Action B) :
  Observe.preserves f m -> (forall a, Observe.preserves f (k a)) ->
  Observe.preserves f (bind m k).
Proof.
  intros Hm Hk w. rewrite bind_eq. specialize (Hm w).
  destruct (m w) as [[a|e] w1]; cbn in *; [|done]. by rewrite Hk.
Qed.

Lemma preserves_catch {A : Type} (m : Action A) (h : Exn -> Action A) :
  Observe.preserves f m -> (forall e, Observe.preserves f (h e)) ->
  Observe.preserves f (catch m h).
Proof.
  intros Hm Hh w. unfold catch. specialize (Hm w).
  destruct (m w) as [[a|e] w1]; cbn in *; [done|]. by rewrite Hh.
Qed.

Lemma preserves_load_cache : Observe.preserves f describe_external_function.load_cache.
Proof. by intros w. Qed.

Lemma preserves_read_transcript_sink : Observe.preserves f pipeline.read_transcript_sink.
Proof. by intros w. Qed.

End FrameBasics.

Create HintDb frame discriminated.

#[local] Hint Resolve preserves_load_cache preserves_read_transcript_sink : frame.

Ltac frame_step :=
  match goal with
  | |- forall _, _ => intros ?
  | |- Observe.preserves _ (bind _ _) => apply preserves_bind
  | |- Observe.preserves _ (catch _ _) => apply preserves_catch
  | |- Observe.preserves _ (ret _) => apply preserves_ret
  | |- Observe.preserves _ (raise _) => apply preserves_raise
  | |- Observe.preserves _ (lift _) => apply preserves_lift
  | |- Observe.preserves _ (if ?b then _ else _) => destruct b
  | |- Observe.preserves _ (match ?x with _ => _ end) => destruct x
  | |- Observe.preserves _ _ => solve [auto with frame nocore]
  end.

Ltac frame := repeat frame_step.

Section FrameQueries.

Context {X : Type} (f : World -> X).
Hypothesis Hq : Observe.untouched_by_queries f.

Lemma preserves_bot_run c : Observe.preserves f (bot_run c).
Proof using Hq. intros w. apply Hq. Qed.

Lemma preserves_print text : Observe.preserves f (print text).
Proof using Hq. intros w. apply Hq. Qed.

Lemma preserves_sleep n : Observe.preserves f (sleep n).
Proof using Hq. intros w. apply Hq. Qed.

Lemma preserves_write_cache cache :
  Observe.preserves f (describe_external_function.write_cache cache).
Proof using Hq. intros w. apply Hq. Qed.

#[local] Hint Resolve preserves_bot_run preserves_print preserves_sleep
  preserves_write_cache : frame.

Lemma preserves_print_responses responses :
  Observe.preserves f (find_iocreatedevice_refs.print_responses responses).
Proof using Hq.
  induction responses as [|resp responses IH];
    cbn [find_iocreatedevice_refs.print_responses]; frame.
Qed.

#[local] Hint Resolve preserves_print_responses : frame.

Lemma preserves_attempts remaining attempt :
  Observe.preserves f (find_iocreatedevice_refs.attempts remaining attempt).
Proof using Hq.
  revert attempt. induction remaining as [|remaining IH]; intros attempt;
    cbn [find_iocreatedevice_refs.attempts]; frame.
Qed.

Lemma preserves_discover :
  Observe.preserves f find_iocreatedevice_refs.find_iocreatedevice_refs.
Proof using Hq. apply preserves_attempts. Qed.

Lemma preserves_resolve target :
  Observe.preserves f (analyze_major_function.analyze_major_function_target target).
Proof using Hq. unfold analyze_major_function.analyze_major_function_target. frame. Qed.

Lemma preserves_rename target :
  Observe.preserves f (rename_iocontrol_code.rename_io_control_code target).
Proof using Hq. unfold rename_iocontrol_code.rename_io_control_code. frame. Qed.

Lemma preserves_define target :
  Observe.preserves f (define_driver_dispatch.define_driver_dispatch target).
Proof using Hq. unfold define_driver_dispatch.define_driver_dispatch. frame. Qed.

Lemma preserves_list target :
  Observe.preserves f (list_subfunctions.list_subfunctions target).
Proof using Hq. unfold list_subfunctions.list_subfunctions. frame. Qed.

Lemma preserves_describe_internal entry :
  Observe.preserves f (describe_internal_function.describe_internal_function entry).
Proof using Hq. unfold describe_internal_function.describe_internal_function. frame. Qed.

Lemma preserves_describe_external entry :
  Observe.preserves f (describe_external_function.describe_external_function entry).
Proof using Hq.
  unfold describe_external_function.describe_external_function,
    describe_external_function.cache_update. frame.
Qed.

Lemma preserves_memory_markdown target :
  Observe.preserves f (analyze_memory_param.analyze_memory_param_markdown target).
Proof using Hq.
  unfold analyze_memory_param.analyze_memory_param_markdown,
    analyze_memory_param.analyze_memory_param. frame.
Qed.

#[local] Hint Resolve preserves_describe_internal preserves_describe_external
  preserves_memory_markdown : frame.

Lemma preserves_describe_child child :
  Observe.preserves f (pipeline.describe_child child).
Proof using Hq. unfold pipeline.describe_child. frame. Qed.

#[local] Hint Resolve preserves_resolve preserves_rename preserves_define
  preserves_list preserves_describe_child : frame.

Lemma preserves_describe_children children sections codes :
  Observe.preserves f (pipeline.describe_children children sections codes).
Proof using Hq.
  revert sections codes. induction children as [|child rest IH]; intros sections codes;
    cbn [pipeline.describe_children]; frame.
Qed.

Lemma preserves_resolve_handler caller :
  Observe.preserves f (pipeline.resolve_handler caller).
Proof using Hq. unfold pipeline.resolve_handler. frame. Qed.

Lemma preserves_rename_and_set_prototype handler :
  Observe.preserves f (pipeline.rename_and_set_prototype handler).
Proof using Hq. unfold pipeline.rename_and_set_prototype. frame. Qed.

Lemma preserves_print_all texts : Observe.preserves f (pipeline.print_all texts).
Proof using Hq.
  induction texts as [|t texts IH]; cbn [pipeline.print_all]; frame.
Qed.

#[local] Hint Resolve preserves_print_all : frame.

Lemma preserves_deep transcripts codes :
  Observe.preserves f (pipeline.run_deep_reasoning transcripts codes).
Proof using Hq.
  unfold pipeline.run_deep_reasoning. destruct transcripts as [|t ts]; [frame|].
  intros w. destruct (deep_backend w) as [create|]; [|done].
  destruct (create (t :: ts) codes) as [stream|]; [|done].
  revert w. fold (Observe.preserves f
    (run print (nl +:+ "[=] 深度思考输出（deepseek-v3.2-exp）" +:+ nl +:+ nl);
     run print (pipeline.rule 20 +:+ "思考过程" +:+ pipeline.rule 20 +:+ nl +:+ nl);
     run pipeline.print_all (pipeline.echoed (pipeline.assemble stream));
     run print (nl +:+ nl +:+ "[=] 深度思考分析完成" +:+ nl +:+ nl);
     ret (pipeline.combined_sections (pipeline.assemble stream)))).
  frame.
Qed.

End FrameQueries.

#[local] Hint Resolve preserves_bot_run preserves_print preserves_sleep
  preserves_write_cache preserves_print_responses preserves_discover
  preserves_resolve preserves_rename preserves_define preserves_list
  preserves_describe_internal preserves_describe_external
  preserves_memory_markdown preserves_describe_child preserves_describe_children
  preserves_print_all preserves_deep : frame.

Section FrameSteps.

Context {X : Type} (f : World -> X).
Hypothesis Hf : Observe.untouched_by_steps f.

Lemma preserves_save_transcript target messages responses :
  Observe.preserves f
    (analyze_irp_memory_access.save_transcript target messages responses).
Proof using Hf. intros w. apply Hf. Qed.

Lemma preserves_new_transcript_sink : Observe.preserves f pipeline.new_transcript_sink.
Proof using Hf. intros w. apply Hf. Qed.

#[local] Hint Resolve preserves_save_transcript preserves_new_transcript_sink : frame.

Lemma preserves_irp target context with_sink :
  Observe.preserves f
    (analyze_irp_memory_access.analyze_irp_memory_access target context with_sink).
Proof using Hf.
  pose proof (proj1 Hf) as Hq.
  unfold analyze_irp_memory_access.analyze_irp_memory_access. frame.
  intros w. destruct with_sink; [apply Hf|done].
Qed.

#[local] Hint Resolve preserves_irp : frame.

Lemma preserves_process caller handler :
  Observe.preserves f (pipeline.process_major_function caller handler).
Proof using Hf.
  pose proof (proj1 Hf) as Hq.
  unfold pipeline.process_major_function, pipeline.analyze_parent_memory,
    pipeline.analyze_irp_memory_section. frame.
Qed.

#[local] Hint Resolve preserves_process : frame.

Lemma preserves_main_loop callers reports transcripts codes :
  Observe.preserves f (pipeline.main_loop callers reports transcripts codes).
Proof using Hf.
  pose proof (proj1 Hf) as Hq.
  revert reports transcripts codes.
  induction callers as [|caller rest IH]; intros reports transcripts codes;
    cbn [pipeline.main_loop];
    unfold pipeline.resolve_handler, pipeline.rename_and_set_prototype; frame.
Qed.

End FrameSteps.

(* ===================================================================== *)
(** ** The run as a whole *)
(* ===================================================================== *)

Lemma report_files_untouched : Observe.untouched_by_steps report_files.
Proof. by repeat split. Qed.

Lemma report_files_untouched_by_queries : Observe.untouched_by_queries report_files.
Proof. by repeat split. Qed.

Lemma main_loop_returns callers :
  forall reports transcripts codes w,
    exists result, fst (pipeline.main_loop callers reports transcripts codes w) = Ok result.
Proof.
  induction callers as [|caller rest IH]; intros reports transcripts codes w.
  - by eexists.
  - rewrite main_loop_cons.
    destruct (resolve_handler_cases caller w) as [Hnone|[handler Hsome]].
    + rewrite (caller_report_unresolved caller w Hnone). apply IH.
    + destruct (caller_section_exists caller handler w Hsome)
        as (b & p & i & t & m & E).
      rewrite E. apply IH.
Qed.

Lemma print_all_returns texts w : fst (pipeline.print_all texts w) = Ok tt.
Proof.
  revert w. induction texts as [|t texts IH]; intros w; [done|].
  cbn [pipeline.print_all]. rewrite bind_eq. unfold print at 1. apply IH.
Qed.

Lemma run_deep_reasoning_returns transcripts codes w :
  exists md, fst (pipeline.run_deep_reasoning transcripts codes w) = Ok md.
Proof.
  unfold pipeline.run_deep_reasoning. destruct transcripts as [|t ts]; [by eexists|].
  destruct (deep_backend w) as [create|]; [|by eexists].
  destruct (create _ _) as [stream|]; [|by eexists].
  rewrite bind_eq. unfold print at 1. rewrite bind_eq. unfold print at 1.
  rewrite bind_eq.
  match goal with |- context [pipeline.print_all ?l ?w1] =>
    pose proof (print_all_returns l w1) as Hp;
    destruct (pipeline.print_all l w1) as [r w2] end.
  cbn [fst] in Hp. subst r. by eexists.
Qed.

Lemma main_after_discovery w :
  pipeline.main w = bind Observe.discovered Observe.reported w.
Proof.
  unfold pipeline.main, Observe.discovered, Observe.reported, bind, ret, lift.
  destruct (find_iocreatedevice_refs.find_iocreatedevice_refs w) as [[found|e] w1];
    [|reflexivity].
  destruct (typed (as_str_dicts found)); reflexivity.
Qed.

Lemma discovered_report_files : Observe.preserves report_files Observe.discovered.
Proof.
  unfold Observe.discovered.
  apply preserves_bind; [apply preserves_discover, report_files_untouched_by_queries|intros found].
  apply preserves_bind; [apply preserves_lift|intros entries].
  apply preserves_ret.
Qed.

Lemma reported_one_file caller rest w :
  exists text w',
    Observe.reported (caller :: rest) w = (Ok tt, w')
    /\ report_files w' = report_files w ++ [text].
Proof.
  unfold Observe.reported. rewrite bind_eq.
  pose proof (preserves_main_loop report_files report_files_untouched
                (caller :: rest) [] [] [] w) as Hl.
  destruct (main_loop_returns (caller :: rest) [] [] [] w) as [[[rs ts] cs] Hr].
  destruct (pipeline.main_loop (caller :: rest) [] [] [] w) as [r w2].
  cbn [fst snd] in *. subst r. cbv beta iota.
  rewrite bind_eq. unfold print at 1. cbv beta iota. rewrite bind_eq.
  set (w3 := set_stdout w2 _).
  pose proof (preserves_deep report_files report_files_untouched_by_queries ts cs w3) as Hdeep.
  destruct (run_deep_reasoning_returns ts cs w3) as [md Hok].
  destruct (pipeline.run_deep_reasoning ts cs w3) as [r w4]. cbn [fst snd] in *. subst r.
  cbv beta iota. unfold pipeline.write_result_report. do 2 eexists. split; [reflexivity|].
  unfold set_report_files. cbn [report_files]. by rewrite Hdeep, <- Hl.
Qed.


(* ===================================================================== *)
(** ** The transcripts of a handler *)
(* ===================================================================== *)

Lemma log_file_untouched_by_queries : Observe.untouched_by_queries log_file.
Proof. by repeat split. Qed.

Lemma after_children_eq children w :
  Run.after_children children w = snd (pipeline.describe_children children [] [] w).
Proof. by rewrite describe_children_eq. Qed.

Lemma process_major_function_logged :
  forall caller handler address name w,
    dict_get "address" handler = Some address ->
    dict_get "func_name" handler = Some name ->
    exists report transcripts codes,
      fst (pipeline.process_major_function caller handler w)
      = Ok (report, transcripts, codes)
      /\ log_file (snd (pipeline.process_major_function caller handler w))
         = log_file w ++ transcripts
      /\ length transcripts <= 1
      /\ Forall (fun t => t_target t = target_of address name
                          /\ conv_step (t_messages t) = AnalyzeIrpMemoryAccess)
                transcripts.
Proof.
  intros caller handler address name w Ha Hn.
  rewrite (process_major_function_eq caller handler address name w Ha Hn). cbn zeta.
  set (target := target_of address name).
  set (listed := list_subfunctions.list_subfunctions target w).
  set (children := match fst listed with Ok l => l | Err _ => [] end).
  set (w2 := Run.after_children children (snd listed)).
  set (parent := analyze_memory_param.analyze_memory_param_markdown target w2).
  set (context := pipeline.combined_context_of _ _ _).
  assert (Hlog : log_file (set_transcript_sink (snd parent) []) = log_file w).
  { cbn. unfold parent.
    rewrite (preserves_memory_markdown log_file log_file_untouched_by_queries).
    unfold w2. rewrite after_children_eq.
    rewrite (preserves_describe_children log_file log_file_untouched_by_queries).
    apply (preserves_list log_file log_file_untouched_by_queries). }
  rewrite (analyze_irp_memory_access_eq target address name _ eq_refl eq_refl).
  cbn zeta.
  destruct (Run.reply_of (set_transcript_sink (snd parent) []) _) as [responses|e];
    cbn [fst snd].
  - do 3 eexists. split; [reflexivity|]. cbn in *.
    split; [by rewrite Hlog|]. split; [lia|]. by repeat constructor.
  - do 3 eexists. split; [reflexivity|]. cbn. rewrite app_nil_r.
    split; [by rewrite <- Hlog|]. split; [lia|]. constructor.
Qed.




(* ===================================================================== *)
(** ** The cache file as a whole *)
(* ===================================================================== *)

Lemma load_lines_lookup k lines acc :
  dict_get k (describe_external_function.load_lines lines acc)
  = match last (filter (fun r => rec_name r <> "" /\ py_lower (rec_name r) = k)
                       (omap id lines)) with
    | Some r => Some r
    | None => dict_get k acc
    end.
Proof.
  revert acc. induction lines as [|[record|] lines IH]; intros acc.
  - reflexivity.
  - change (omap id (Some record :: lines)) with (record :: omap id lines).
    cbn [describe_external_function.load_lines].
    destruct (nonempty (rec_name record)) eqn:Hn; cbn [negb].
    + apply nonempty_true in Hn. rewrite IH.
      destruct (decide (py_lower (rec_name record) = k)) as [Hk|Hk].
      * rewrite filter_cons_True by done. rewrite last_cons.
        destruct (last _); [done|]. rewrite <- Hk. apply dict_get_set_eq.
      * rewrite filter_cons_False by tauto.
        destruct (last _); [done|]. by apply dict_get_set_ne.
    + apply nonempty_false in Hn. rewrite IH.
      rewrite filter_cons_False by tauto. done.
  - change (omap id (None :: lines)) with (omap id lines). apply IH.
Qed.

Lemma records_of_persisted (cache : Dict DescriptionRecord) :
  omap id (Run.persisted cache) = map snd cache.
Proof.
  unfold Run.persisted. induction cache as [|kv cache IH]; [done|].
  cbn [map]. change (omap id (Some (snd kv) :: ?l)) with (snd kv :: omap id l).
  by rewrite IH.
Qed.

Lemma cache_wf_lookup cache k r :
  Run.cache_wf cache -> dict_get k cache = Some r ->
  rec_name r <> "" /\ py_lower (rec_name r) = k.
Proof.
  intros [Hall _]. induction cache as [|[k' r'] cache IH]; cbn; [done|].
  apply Forall_cons in Hall as [[Hk Hname] Hall]. cbn in Hk, Hname.
  destruct (String.eqb k k') eqn:E.
  - apply String.eqb_eq in E as ->. by intros [= <-].
  - by apply IH.
Qed.

Lemma filter_values_dict_set {V : Type} (P : V -> Prop) `{!forall v, Decision (P v)}
    (k : string) (v : V) (d : Dict V) :
  ~ P v -> (forall v0, dict_get k d = Some v0 -> ~ P v0) ->
  filter P (map snd (dict_set k v d)) = filter P (map snd d).
Proof.
  intros Hv. induction d as [|[k' v'] d IH]; intros Hold; cbn [dict_set map snd].
  - by rewrite filter_cons_False.
  - cbn [dict_get] in Hold. destruct (String.eqb k k') eqn:E; cbn [map snd].
    + rewrite !filter_cons_False; [done| |done]. by apply Hold.
    + rewrite !filter_cons. by rewrite IH.
Qed.



Lemma describe_external_cache_file entry w :
  cache_file (snd (describe_external_function.describe_external_function entry w))
  = cache_file w
  \/ exists address name record,
       dict_get "name" entry = Some name
       /\ py_lower (rec_name record) = py_lower name
       /\ (forall cached, dict_get (py_lower name) (Run.loaded w) = Some cached ->
                          py_lower (rec_name cached) = py_lower name)
       /\ dict_get "address" entry = Some address
       /\ cache_file (snd (describe_external_function.describe_external_function entry w))
          = Run.persisted (dict_set (py_lower name) record (Run.loaded w)).
Proof.
  destruct (dict_get "address" entry) as [address|] eqn:Ha; cycle 1.
  { left. unfold describe_external_function.describe_external_function, has_key.
    by rewrite Ha. }
  destruct (dict_get "name" entry) as [name|] eqn:Hn; cycle 1.
  { left. unfold describe_external_function.describe_external_function, has_key.
    by rewrite Ha, Hn. }
  assert (Hold : forall cached,
             dict_get (py_lower name) (Run.loaded w) = Some cached ->
             py_lower (rec_name cached) = py_lower name).
  { intros cached Hc. by apply (cache_wf_lookup _ _ _ (loaded_wf w) Hc). }
  destruct (describe_external_function.cache_lookup (Run.loaded w) name)
    as [cached|] eqn:Hlook.
  - rewrite (describe_external_hit entry address name w Ha Hn cached Hlook). cbn [snd].
    destruct (mem_str address (rec_addresses cached)); [by left|].
    right. exists address, name. eexists.
    split; [done|]. split; [|split; [done|split; [done|reflexivity]]].
    cbn. by apply Hold.
  - rewrite (describe_external_miss entry address name w Ha Hn Hlook). cbn zeta.
    destruct (Run.and_then _ _) as [markdown|e]; cbn [snd]; [|by left].
    right. exists address, name. eexists.
    split; [done|]. split; [|split; [done|split; [done|reflexivity]]]. done.
Qed.



(* ===================================================================== *)
(** ** The deduplicator, once more *)
(* ===================================================================== *)

Lemma filter_all {A : Type} (P : A -> Prop) `{!forall x, Decision (P x)} (l : list A) :
  Forall P l -> filter P l = l.
Proof.
  induction 1 as [|x l Hx Hl IH]; [done|]. by rewrite filter_cons_True, IH.
Qed.

Section FirstSeen.

Context {A K : Type} `{EqDecision K} (key : A -> K).

Lemma first_seen_sublist (l : list A) : Spec.first_seen key l `sublist_of` l.
Proof.
  induction l as [|x l IH]; cbn [Spec.first_seen]; [done|].
  apply sublist_skip. etrans; [apply sublist_filter|exact IH].
Qed.

Lemma first_seen_keys_NoDup (l : list A) : NoDup (key <$> Spec.first_seen key l).
Proof.
  induction l as [|x l IH]; cbn [Spec.first_seen]; [constructor|].
  rewrite fmap_cons. apply NoDup_cons. split.
  - rewrite list_elem_of_fmap. intros (y & Hy & Hin).
    apply list_elem_of_filter in Hin as [Hne _]. congruence.
  - eapply sublist_NoDup; [exact IH|]. apply fmap_sublist, sublist_filter.
Qed.

Lemma first_seen_covers (l : list A) (x : A) :
  x ∈ l -> exists y, y ∈ Spec.first_seen key l /\ key y = key x.
Proof.
  induction l as [|z l IH]; [by intros ?%elem_of_nil|].
  cbn [Spec.first_seen]. intros [->|Hin]%elem_of_cons.
  - exists z. split; [apply list_elem_of_here|done].
  - destruct (IH Hin) as (y & Hy & Hk).
    destruct (decide (key y = key z)) as [Hz|Hz].
    + exists z. split; [apply list_elem_of_here|congruence].
    + exists y. split; [|done]. apply list_elem_of_further, list_elem_of_filter. done.
Qed.

Lemma first_seen_of_distinct (l : list A) :
  NoDup (key <$> l) -> Spec.first_seen key l = l.
Proof.
  induction l as [|x l IH]; [done|]. rewrite fmap_cons, NoDup_cons.
  intros [Hx Hl]. cbn [Spec.first_seen]. rewrite (IH Hl). f_equal.
  apply filter_all, Forall_forall. intros y Hy Hk. apply Hx.
  apply list_elem_of_fmap. eauto.
Qed.

End FirstSeen.

Lemma dedupe_functions_usable entries n a :
  Forall (Spec.usable n a) (pipeline.dedupe_functions entries n a).
Proof.
  rewrite dedupe_functions_first_seen. apply Forall_forall. intros e He.
  eapply elem_of_sublist in He; [|apply first_seen_sublist].
  by apply list_elem_of_filter in He as [Hu _].
Qed.


(** X9: deduplicating twice changes nothing: the deduplicator returns its
    own output unchanged. *)
Theorem dedupe_functions_is_idempotent :
  forall entries name_key addr_key,
    pipeline.dedupe_functions
      (pipeline.dedupe_functions entries name_key addr_key) name_key addr_key
    = pipeline.dedupe_functions entries name_key addr_key.
Proof.
  intros entries n a.
  rewrite (dedupe_functions_first_seen (pipeline.dedupe_functions entries n a)).
  rewrite filter_all by apply dedupe_functions_usable.
  apply first_seen_of_distinct.
  rewrite dedupe_functions_first_seen. apply first_seen_keys_NoDup.
Qed.

(* ===================================================================== *)
(** ** The attempts of the discover step, whatever the backend *)
(* ===================================================================== *)

Lemma attempts_outcome remaining :
  forall attempt w,
    attempt + remaining = 3 -> 1 <= remaining ->
    let c := find_iocreatedevice_refs.build_messages in
    let r := find_iocreatedevice_refs.attempts remaining attempt w in
    exists n,
      (1 <= n <= remaining)
      /\ requests (snd r) = requests w ++ repeat c n
      /\ slept (snd r) = slept w ++ repeat 30 (n - 1)
      /\ ((fst r = Err (BackendError "run")
           /\ oracle w (length (requests w) + (n - 1)) c = None)
          \/ (fst r = Err (RuntimeError "未能从助手响应中解析到 JSON 列表")
              /\ n = remaining)
          \/ (exists responses found,
                 fst r = Ok found
                 /\ oracle w (length (requests w) + (n - 1)) c = Some responses
                 /\ find_iocreatedevice_refs.extract_json_result responses = Ok found)).
Proof.
  induction remaining as [|remaining IH]; intros attempt w Hsum Hpos; [lia|].
  cbn zeta. rewrite attempts_step. cbn zeta.
  set (c := find_iocreatedevice_refs.build_messages).
  destruct (oracle w (length (requests w)) c) as [responses|] eqn:Hreply.
  - destruct (find_iocreatedevice_refs.extract_json_result responses) as [found|e]
      eqn:Hextract.
    + exists 1. cbn. rewrite app_nil_r, Nat.add_0_r.
      split; [lia|]. split; [done|]. split; [done|]. right. right. eauto.
    + apply extract_json_result_error in Hextract as ->.
      destruct (2 <=? attempt) eqn:Hlast.
      * apply Nat.leb_le in Hlast. exists 1. cbn. rewrite app_nil_r.
        split; [lia|]. split; [done|]. split; [done|]. right. left. split; [done|lia].
      * apply Nat.leb_gt in Hlast.
        match goal with |- context [find_iocreatedevice_refs.attempts _ _ ?w1] =>
          set (w' := w1) end.
        destruct (IH (S attempt) w' ltac:(lia) ltac:(lia))
          as (n & Hn & Hrequests & Hslept & Hresult).
        exists (S n). split; [lia|].
        split; [rewrite Hrequests; cbn; by rewrite <- app_assoc|].
        split.
        { rewrite Hslept. cbn [slept w' set_slept]. rewrite <- app_assoc.
          replace (S n - 1) with (S (n - 1)) by lia. done. }
        replace (length (requests w) + (S n - 1))
          with (length (requests w') + (n - 1))
          by (cbn; rewrite length_app; cbn; lia).
        destruct Hresult as [[? ?]|[[? ?]|(rs & found & ? & ? & ?)]].
        -- by left.
        -- right. left. split; [done|lia].
        -- right. right. by exists rs, found.
  - exists 1. cbn. rewrite app_nil_r, Nat.add_0_r.
    split; [lia|]. split; [done|]. split; [done|]. by left.
Qed.

(** X10: the discover step under any backend. It submits its one
    conversation n times, with n between 1 and 3, and sleeps 30 seconds
    n - 1 times, once between consecutive attempts. It ends in one of
    three ways: a backend failure, which is never retried (it is that of
    the n-th submission); the extraction error, raised only when all
    three attempts are spent; or the entries extracted from the reply to
    the n-th submission. The loop never falls through without a
    result. *)
Theorem discover_asks_between_one_and_three_times :
  forall w,
    let c := find_iocreatedevice_refs.build_messages in
    let r := find_iocreatedevice_refs.find_iocreatedevice_refs w in
    exists n,
      (1 <= n <= 3)
      /\ requests (snd r) = requests w ++ repeat c n
      /\ slept (snd r) = slept w ++ repeat 30 (n - 1)
      /\ ((fst r = Err (BackendError "run")
           /\ oracle w (length (requests w) + (n - 1)) c = None)
          \/ (fst r = Err (RuntimeError "未能从助手响应中解析到 JSON 列表")
              /\ n = 3)
          \/ (exists responses found,
                 fst r = Ok found
                 /\ oracle w (length (requests w) + (n - 1)) c = Some responses
                 /\ find_iocreatedevice_refs.extract_json_result responses = Ok found)).
Proof.
  intros w. apply (attempts_outcome 3 0 w); lia.
Qed.

(* ===================================================================== *)
(** ** The array extractors *)
(* ===================================================================== *)

Section LastAccepted.

Context {A : Type} (accept : string -> option A).
Variable loop : list string -> Result A.
Hypothesis loop_nil : exists e, loop [] = Err e.
Hypothesis loop_cons :
  forall raw rest,
    loop (raw :: rest) = match accept raw with Some a => Ok a | None => loop rest end.

Lemma last_accepted_here responses m a :
  role m = "assistant" -> accept (content m) = Some a ->
  Observe.last_accepted accept (responses ++ [m]) a.
Proof using Type. intros Hrole Ha. exists responses, m, []. by repeat split. Qed.

Lemma last_accepted_skip responses m a :
  (role m = "assistant" -> accept (content m) = None) ->
  Observe.last_accepted accept responses a ->
  Observe.last_accepted accept (responses ++ [m]) a.
Proof using Type.
  intros Hm (before & m0 & after & -> & Hrole & Ha & Hafter).
  exists before, m0, (after ++ [m]). rewrite <- app_assoc.
  repeat split; try done. rewrite Forall_app, Forall_singleton. by split.
Qed.

Lemma loop_last_accepted responses :
  match loop (rev (assistant_contents responses)) with
  | Ok a => Observe.last_accepted accept responses a
  | Err _ => Observe.none_accepted accept responses
  end.
Proof using loop_nil loop_cons.
  induction responses as [|m responses IH] using rev_ind.
  - change (rev (assistant_contents [])) with (@nil string).
    destruct loop_nil as [e ->]. constructor.
  - rewrite assistant_contents_snoc. case_decide as Hrole; cbn [app].
    + rewrite loop_cons. destruct (accept (content m)) as [a|] eqn:Ha.
      * by apply last_accepted_here.
      * destruct (loop (rev (assistant_contents responses))).
        -- by apply last_accepted_skip.
        -- unfold Observe.none_accepted. rewrite Forall_app, Forall_singleton. by split.
    + destruct (loop (rev (assistant_contents responses))).
      * by apply last_accepted_skip.
      * unfold Observe.none_accepted. rewrite Forall_app, Forall_singleton. by split.
Qed.

End LastAccepted.

(** X11: the two array extractors scan the assistant messages from the
    last to the first and return what the first acceptable one yields;
    they raise exactly when no assistant message is acceptable.  The
    discover step accepts a text that, once stripped, is not empty and
    yields an array on one of its three parse attempts; the
    enumerate-children step accepts only a text that is, as a whole, a
    JSON array.  Messages of other roles are never looked at. *)
Theorem array_extractors_take_the_last_acceptable_message :
  forall responses,
    match find_iocreatedevice_refs.extract_json_result responses with
    | Ok found =>
        Observe.last_accepted Observe.discover_accepts responses found
    | Err _ => Observe.none_accepted Observe.discover_accepts responses
    end
    /\ match list_subfunctions.extract_json_array responses with
       | Ok found => Observe.last_accepted Observe.whole_array responses found
       | Err _ => Observe.none_accepted Observe.whole_array responses
       end.
Proof.
  intros responses. split.
  - apply (loop_last_accepted Observe.discover_accepts
             find_iocreatedevice_refs.extract_json_result_loop).
    + by eexists.
    + intros raw rest. cbn [find_iocreatedevice_refs.extract_json_result_loop].
      unfold Observe.discover_accepts.
      by destruct (nonempty (py_strip raw)).
  - apply (loop_last_accepted Observe.whole_array
             list_subfunctions.extract_json_array_loop).
    + by eexists.
    + intros raw rest. cbn [list_subfunctions.extract_json_array_loop].
      unfold Observe.whole_array.
      by destruct (json_loads raw) as [[]|].
Qed.

(* ===================================================================== *)
(** ** The two accumulators of the assembler *)
(* ===================================================================== *)

Lemma feed_chunk_parts a chunk :
  pipeline.reasoning_parts (pipeline.feed_chunk a chunk)
  = pipeline.reasoning_parts a
    ++ (if nonempty (Spec.reasoning_fragment chunk)
        then [Spec.reasoning_fragment chunk] else [])
  /\ pipeline.answer_parts (pipeline.feed_chunk a chunk)
     = pipeline.answer_parts a
       ++ (if nonempty (Spec.answer_fragment chunk)
           then [Spec.answer_fragment chunk] else []).
Proof.
  unfold pipeline.feed_chunk, Spec.reasoning_fragment, Spec.answer_fragment.
  destruct (choices chunk) as [|[delta|] rest]; cbn [nonempty].
  - destruct (usage chunk); cbn; by rewrite !app_nil_r.
  - unfold pipeline.feed_delta.
    set (t0 := pipeline._stringify_stream_field (reasoning_content delta)).
    set (t1 := pipeline._stringify_stream_field (thinking delta)).
    set (c := pipeline._stringify_stream_field (delta_content delta)).
    assert (Ht : (if negb (nonempty t0) then t1 else t0)
                 = (if nonempty t0 then t0 else t1))
      by (by destruct (nonempty t0)).
    rewrite Ht.
    destruct (nonempty (if nonempty t0 then t0 else t1)), (nonempty c); cbn;
      by rewrite ?app_nil_r.
  - by rewrite !app_nil_r.
Qed.

Lemma fragments_cons channel chunk stream :
  Observe.fragments channel (chunk :: stream)
  = (if nonempty (channel chunk) then [channel chunk] else [])
    ++ Observe.fragments channel stream.
Proof.
  unfold Observe.fragments. cbn [map]. rewrite filter_cons.
  destruct (nonempty (channel chunk)) eqn:Hn.
  - apply nonempty_true in Hn. by rewrite decide_True.
  - apply nonempty_false in Hn. rewrite decide_False; [done|]. by intros ?.
Qed.

Lemma fold_feed_parts stream :
  forall a,
    pipeline.reasoning_parts (fold_left pipeline.feed_chunk stream a)
    = pipeline.reasoning_parts a ++ Observe.fragments Spec.reasoning_fragment stream
    /\ pipeline.answer_parts (fold_left pipeline.feed_chunk stream a)
       = pipeline.answer_parts a ++ Observe.fragments Spec.answer_fragment stream.
Proof.
  induction stream as [|chunk stream IH]; intros a.
  - cbn. by rewrite !app_nil_r.
  - cbn [fold_left]. destruct (IH (pipeline.feed_chunk a chunk)) as [-> ->].
    destruct (feed_chunk_parts a chunk) as [-> ->].
    by rewrite !fragments_cons, <- !app_assoc.
Qed.

(** X12: the two accumulators never mix. Over any stream, the reasoning
    accumulator is the sequence of the non-empty reasoning fragments of
    the chunks, and the answer accumulator that of their non-empty answer
    fragments, each in stream order; so each of the two texts returned
    depends on its own channel only, whatever the interleaving, and a
    chunk without choices (a usage chunk) or with an empty first choice
    adds to neither.  Over two streams read one after the other both
    accumulators are the concatenations. *)
Theorem assembler_accumulates_each_channel :
  (forall stream,
      pipeline.reasoning_parts (pipeline.assemble stream)
      = Observe.fragments Spec.reasoning_fragment stream
      /\ pipeline.answer_parts (pipeline.assemble stream)
         = Observe.fragments Spec.answer_fragment stream)
  /\ (forall first second,
         pipeline.reasoning_parts (pipeline.assemble (first ++ second))
         = pipeline.reasoning_parts (pipeline.assemble first)
           ++ pipeline.reasoning_parts (pipeline.assemble second)
         /\ pipeline.answer_parts (pipeline.assemble (first ++ second))
            = pipeline.answer_parts (pipeline.assemble first)
              ++ pipeline.answer_parts (pipeline.assemble second)).
Proof.
  assert (H : forall stream,
             pipeline.reasoning_parts (pipeline.assemble stream)
             = Observe.fragments Spec.reasoning_fragment stream
             /\ pipeline.answer_parts (pipeline.assemble stream)
                = Observe.fragments Spec.answer_fragment stream).
  { intros stream. unfold pipeline.assemble.
    by destruct (fold_feed_parts stream pipeline.assembler_start) as [-> ->]. }
  split; [exact H|]. intros first second.
  destruct (H (first ++ second)) as [-> ->].
  destruct (H first) as [-> ->]. destruct (H second) as [-> ->].
  unfold Observe.fragments. by rewrite !map_app, !filter_app.
Qed.

(* ===================================================================== *)
(** ** The extractors of the two best-effort steps *)
(* ===================================================================== *)

Lemma rename_loop_after_object_loop raws :
  rename_iocontrol_code.extract_json_result_loop raws
  = match analyze_memory_param.extract_json_loop raws with
    | Ok d =>
        if Observe.renamed d then Ok d
        else Err (RuntimeError "JSON 对象缺少 address/func_name/old_name/new_name 字段")
    | Err _ => Err (RuntimeError "未能从助手响应中解析到 JSON 对象")
    end.
Proof.
  induction raws as [|raw raws IH]; [done|].
  cbn [rename_iocontrol_code.extract_json_result_loop
       analyze_memory_param.extract_json_loop].
  by destruct (json_loads raw) as [[]|].
Qed.

(** X13: the extractors of the two best-effort steps. The rename step
    looks at one object only, that of the last assistant message whose
    whole text is a JSON object: it returns that object when it has the
    members address, func_name and old_name and its new_name is the text
    IoControlCode, and raises otherwise, without going back to an earlier
    message that would qualify.  The set-prototype step returns the
    object of the last assistant message whose stripped text is not empty
    and is, as a whole, a JSON object, and raises exactly when there is
    none. *)
Theorem best_effort_extractors :
  forall responses,
    rename_iocontrol_code.extract_json_result responses
    = match analyze_memory_param.extract_json responses with
      | Ok d =>
          if Observe.renamed d then Ok d
          else Err (RuntimeError "JSON 对象缺少 address/func_name/old_name/new_name 字段")
      | Err _ => Err (RuntimeError "未能从助手响应中解析到 JSON 对象")
      end
    /\ match define_driver_dispatch.extract_json_result responses with
       | Ok d => Observe.last_accepted Observe.stripped_object responses d
       | Err _ => Observe.none_accepted Observe.stripped_object responses
       end.
Proof.
  intros responses. split.
  - apply rename_loop_after_object_loop.
  - apply (loop_last_accepted Observe.stripped_object
             define_driver_dispatch.extract_json_result_loop).
    + by eexists.
    + intros raw rest. cbn [define_driver_dispatch.extract_json_result_loop].
      unfold Observe.stripped_object.
      destruct (nonempty (py_strip raw)); cbn [negb]; [|done].
      by destruct (json_loads (py_strip raw)) as [[]|].
Qed.

(* ===================================================================== *)
(** ** The live echo of the reasoning stream *)
(* ===================================================================== *)

Lemma feed_chunk_echoed a chunk :
  pipeline.echoed (pipeline.feed_chunk a chunk)
  = pipeline.echoed a ++ Observe.usage_lines chunk
    ++ (if pipeline.is_answering a then []
        else Observe.shown (Spec.reasoning_fragment chunk))
    ++ (if nonempty (Spec.answer_fragment chunk)
        then (if pipeline.is_answering a then [] else [pipeline.ANSWER_BANNER])
             ++ [Spec.answer_fragment chunk]
        else []).
Proof.
  unfold pipeline.feed_chunk, Spec.reasoning_fragment, Spec.answer_fragment,
    Observe.usage_lines, Observe.shown.
  destruct (choices chunk) as [|[delta|] rest]; cbn [nonempty].
  - destruct (usage chunk), (pipeline.is_answering a); cbn; by rewrite ?app_nil_r.
  - unfold pipeline.feed_delta.
    set (t0 := pipeline._stringify_stream_field (reasoning_content delta)).
    set (t1 := pipeline._stringify_stream_field (thinking delta)).
    set (c := pipeline._stringify_stream_field (delta_content delta)).
    assert (Ht : (if negb (nonempty t0) then t1 else t0)
                 = (if nonempty t0 then t0 else t1))
      by (by destruct (nonempty t0)).
    rewrite Ht.
    destruct (nonempty (if nonempty t0 then t0 else t1)), (nonempty c),
      (pipeline.is_answering a) eqn:Ha; cbn; rewrite ?Ha; cbn;
      by rewrite <- ?app_assoc, ?app_nil_r.
  - destruct (pipeline.is_answering a); cbn; by rewrite ?app_nil_r.
Qed.

Lemma fold_feed_thinking stream :
  forall a,
    pipeline.is_answering a = false ->
    Forall (fun chunk => Spec.answer_fragment chunk = "") stream ->
    pipeline.is_answering (fold_left pipeline.feed_chunk stream a) = false
    /\ pipeline.echoed (fold_left pipeline.feed_chunk stream a)
       = pipeline.echoed a
         ++ flat_map (fun chunk => Observe.usage_lines chunk
                                   ++ Observe.shown (Spec.reasoning_fragment chunk))
                     stream.
Proof.
  induction stream as [|chunk stream IH]; intros a Ha Hall.
  - cbn. by rewrite app_nil_r.
  - apply Forall_cons in Hall as [Hc Hall]. cbn [fold_left flat_map].
    destruct (IH (pipeline.feed_chunk a chunk)) as [-> ->]; [|done|].
    + by rewrite feed_chunk_is_answering, Ha, Hc.
    + split; [done|]. rewrite feed_chunk_echoed, Ha, Hc. cbn [nonempty].
      by rewrite app_nil_r, <- !app_assoc.
Qed.

Lemma fold_feed_answering stream :
  forall a,
    pipeline.is_answering a = true ->
    pipeline.echoed (fold_left pipeline.feed_chunk stream a)
    = pipeline.echoed a
      ++ flat_map (fun chunk => Observe.usage_lines chunk
                                ++ Observe.shown (Spec.answer_fragment chunk))
                  stream.
Proof.
  induction stream as [|chunk stream IH]; intros a Ha.
  - cbn. by rewrite app_nil_r.
  - cbn [fold_left flat_map]. rewrite IH.
    + rewrite feed_chunk_echoed, Ha. unfold Observe.shown. cbn [app].
      destruct (nonempty (Spec.answer_fragment chunk)); by rewrite <- !app_assoc.
    + by rewrite feed_chunk_is_answering, Ha.
Qed.

Lemma usage_lines_of_answer chunk :
  Spec.answer_fragment chunk <> "" -> Observe.usage_lines chunk = [].
Proof.
  unfold Spec.answer_fragment, Observe.usage_lines.
  by destruct (choices chunk) as [|[delta|] rest].
Qed.

(** X14: what the reader of the console sees of the reasoning stream.
    Up to the first chunk that carries an answer fragment every non-empty
    reasoning fragment is echoed as it arrives; that chunk's own
    reasoning, if any, is echoed too, then the banner once, then the
    answer fragment; from there on only answer fragments are echoed, and
    no reasoning fragment and no second banner ever is.  Usage
    statistics are printed where they arrive. *)
Theorem echo_shows_reasoning_until_the_answer_starts :
  forall before first after,
    Forall (fun chunk => Spec.answer_fragment chunk = "") before ->
    Spec.answer_fragment first <> "" ->
    pipeline.echoed (pipeline.assemble (before ++ first :: after))
    = flat_map (fun chunk => Observe.usage_lines chunk
                             ++ Observe.shown (Spec.reasoning_fragment chunk))
               before
      ++ Observe.shown (Spec.reasoning_fragment first)
      ++ [pipeline.ANSWER_BANNER; Spec.answer_fragment first]
      ++ flat_map (fun chunk => Observe.usage_lines chunk
                                ++ Observe.shown (Spec.answer_fragment chunk))
                  after.
Proof.
  intros before first after Hbefore Hfirst.
  unfold pipeline.assemble. rewrite fold_left_app. cbn [fold_left].
  destruct (fold_feed_thinking before pipeline.assembler_start eq_refl Hbefore)
    as [Ha He].
  set (a := fold_left pipeline.feed_chunk before pipeline.assembler_start) in *.
  rewrite fold_feed_answering.
  - rewrite feed_chunk_echoed, Ha, He, (usage_lines_of_answer first Hfirst).
    apply nonempty_true in Hfirst. rewrite Hfirst. cbn [app pipeline.echoed
      pipeline.assembler_start]. by rewrite <- !app_assoc.
  - rewrite feed_chunk_is_answering, Ha. by apply nonempty_true in Hfirst as ->.
Qed.

Lemma echo_shows_reasoning_until_the_answer_starts_witness :
  pipeline.echoed (pipeline.assemble Samples.split_stream)
  = ["why "; "so"; pipeline.ANSWER_BANNER; "yes"].
Proof.
  apply (echo_shows_reasoning_until_the_answer_starts
           [Samples.reasoning_chunk "why "; Samples.reasoning_chunk "so"]
           (Samples.answer_chunk "yes")
           [Samples.reasoning_chunk "ignored"]).
  - repeat constructor.
  - vm_compute. discriminate.
Defined.

(* ===================================================================== *)
(** ** The text of a streamed field *)
(* ===================================================================== *)

Lemma string_app_nil_r (s : string) : s +:+ "" = s.
Proof.
  induction s as [|c s IH]; [done|].
  change (String c s +:+ "") with (String c (s +:+ "")). by rewrite IH.
Qed.

Lemma string_app_assoc (a b c : string) : (a +:+ b) +:+ c = a +:+ (b +:+ c).
Proof.
  induction a as [|x a IH]; [done|].
  change ((String x a +:+ b) +:+ c) with (String x ((a +:+ b) +:+ c)).
  by rewrite IH.
Qed.

Lemma join_empty_cons (p : string) (rest : list string) :
  join "" (p :: rest) = p +:+ join "" rest.
Proof. destruct rest; cbn; [by rewrite string_app_nil_r|done]. Qed.

Lemma join_empty_app (l1 l2 : list string) :
  join "" (l1 ++ l2) = join "" l1 +:+ join "" l2.
Proof.
  induction l1 as [|p l1 IH]; [done|].
  change ((p :: l1) ++ l2) with (p :: (l1 ++ l2)).
  by rewrite !join_empty_cons, IH, string_app_assoc.
Qed.

Lemma join_empty_concat (l : list string) : join "" l = String.concat "" l.
Proof.
  induction l as [|p l IH]; [done|]. rewrite join_empty_cons, IH.
  destruct l; cbn; [by rewrite string_app_nil_r|done].
Qed.

Lemma stringify_list items :
  pipeline._stringify_stream_field (FList items)
  = join "" (map (fun item =>
                    match item with
                    | FDict d => pipeline.item_text d
                    | _ => pipeline._stringify_stream_field item
                    end) items).
Proof. reflexivity. Qed.

(** X15: a list-valued field of the stream is flattened: the text of a
    list is the concatenation of the texts of its items, so the text of
    two lists put end to end is the two texts put end to end, a list
    nested in a list reads as if its items stood in the outer list, a
    missing item adds nothing, and a list of plain strings reads as
    their concatenation. *)
Theorem stringify_flattens_lists :
  (forall items1 items2,
      pipeline._stringify_stream_field (FList (items1 ++ items2))
      = pipeline._stringify_stream_field (FList items1)
        +:+ pipeline._stringify_stream_field (FList items2))
  /\ (forall items rest,
         pipeline._stringify_stream_field (FList (FList items :: rest))
         = pipeline._stringify_stream_field (FList (items ++ rest)))
  /\ (forall rest,
         pipeline._stringify_stream_field (FList (FNone :: rest))
         = pipeline._stringify_stream_field (FList rest))
  /\ (forall texts,
         pipeline._stringify_stream_field (FList (map FStr texts))
         = String.concat "" texts).
Proof.
  split; [|split; [|split]].
  - intros items1 items2. by rewrite !stringify_list, map_app, join_empty_app.
  - intros items rest.
    etrans; [apply stringify_list|]. cbn [map]. rewrite join_empty_cons.
    symmetry. etrans; [apply stringify_list|].
    by rewrite map_app, join_empty_app.
  - intros rest. etrans; [apply stringify_list|]. cbn [map].
    by rewrite join_empty_cons.
  - intros texts. etrans; [|apply join_empty_concat].
    rewrite stringify_list, map_map. f_equal.
    induction texts as [|t texts IH]; [done|]. cbn [map]. by rewrite IH.
Qed.

(* ===================================================================== *)
(** ** The transcripts of a run *)
(* ===================================================================== *)

Lemma caller_report_logged caller w :
  exists outcome,
    fst (Run.caller_report caller w) = Ok outcome
    /\ match outcome with
       | Some (report, transcripts, codes) =>
           log_file (snd (Run.caller_report caller w)) = log_file w ++ transcripts
           /\ length transcripts <= 1
       | None => log_file (snd (Run.caller_report caller w)) = log_file w
       end.
Proof.
  destruct (resolve_handler_cases caller w) as [Hnone|[handler Hsome]].
  - exists None. rewrite (caller_report_unresolved caller w Hnone). cbn [fst snd].
    split; [done|].
    apply (preserves_resolve_handler log_file log_file_untouched_by_queries).
  - destruct (resolved_handler_keys caller w handler Hsome) as (address & name & Ha & Hn).
    rewrite (caller_report_resolved caller handler w Hsome). cbn zeta.
    destruct (process_major_function_logged caller handler address name
                (Run.enumeration_world caller handler w) Ha Hn)
      as (report & ts & codes & Hrun & Hlog & Hlen & _).
    exists (Some (report, ts, codes)). rewrite Hrun. cbn [fst snd Run.and_then].
    split; [done|]. split; [|done]. rewrite Hlog. f_equal.
    unfold Run.enumeration_world.
    rewrite (preserves_rename_and_set_prototype log_file log_file_untouched_by_queries).
    apply (preserves_resolve_handler log_file log_file_untouched_by_queries).
Qed.


(* ===================================================================== *)
(** ** What describing the children costs *)
(* ===================================================================== *)

Lemma describe_child_requests child w :
  exists asked,
    requests (snd (pipeline.describe_child child w)) = requests w ++ asked
    /\ length asked <= (if pipeline.is_external child then 1 else 2)
    /\ Forall (fun c => dict_get "address" child = Some (conv_address c)
                        /\ dict_get "name" child = Some (conv_name c)
                        /\ conv_step c <> AnalyzeIrpMemoryAccess)
              asked.
Proof.
  destruct (dict_get "address" child) as [address|] eqn:Ha; cycle 1.
  { exists []. rewrite app_nil_r. unfold pipeline.describe_child, dict_index.
    rewrite Ha. split; [by destruct (pipeline.is_external child)|].
    split; [by destruct (pipeline.is_external child); cbn; lia|constructor]. }
  destruct (dict_get "name" child) as [name|] eqn:Hn; cycle 1.
  { exists []. rewrite app_nil_r. unfold pipeline.describe_child, dict_index.
    rewrite Ha, Hn. split; [by destruct (pipeline.is_external child)|].
    split; [by destruct (pipeline.is_external child); cbn; lia|constructor]. }
  destruct (pipeline.is_external child) eqn:Hext.
  - rewrite (describe_child_external child address name w Hext Ha Hn). cbn zeta.
    cbn [snd].
    destruct (describe_external_requests (entry_of address name) address name w
                eq_refl eq_refl) as [->| ->].
    + exists []. rewrite app_nil_r. split; [done|]. split; [cbn; lia|constructor].
    + eexists. split; [reflexivity|]. split; [cbn; lia|]. by repeat constructor.
  - rewrite (describe_child_internal child address name w Hext Ha Hn). cbn zeta.
    destruct (Run.and_then _ extract_markdown) as [desc|e]; cbn [snd].
    + destruct (pipeline.has_memory_marker desc); cbn [snd].
      * exists [mkConversation DescribeInternal name address None;
                mkConversation AnalyzeMemoryParam name address None].
        split; [cbn; by rewrite <- app_assoc|]. split; [cbn; lia|].
        by repeat constructor.
      * eexists. split; [reflexivity|]. split; [cbn; lia|]. by repeat constructor.
    + eexists. split; [reflexivity|]. split; [cbn; lia|]. by repeat constructor.
Qed.

(** X17: what describing the children costs. Describing one child
    submits at most two conversations, and at most one for an external
    child, each about that child's own name and address and none of them
    the controlled-access analysis; a child without a name or an address
    costs nothing.  Describing all the children of a handler therefore
    submits at most two conversations for each child, whatever fails on
    the way. *)
Theorem children_cost_at_most_two_conversations_each :
  forall children sections codes w,
    exists asked,
      requests (snd (pipeline.describe_children children sections codes w))
      = requests w ++ asked
      /\ length asked <= 2 * length children
      /\ Forall (fun c => exists child,
                            child ∈ children
                            /\ dict_get "address" child = Some (conv_address c)
                            /\ dict_get "name" child = Some (conv_name c)
                            /\ conv_step c <> AnalyzeIrpMemoryAccess)
                asked.
Proof.
  induction children as [|child rest IH]; intros sections codes w.
  - exists []. cbn. rewrite app_nil_r. split; [done|]. split; [lia|constructor].
  - cbn [pipeline.describe_children]. unfold bind, catch, ret.
    destruct (describe_child_requests child w) as (asked & Hreq & Hlen & Hall).
    assert (Hall' : Forall (fun c => exists child0,
                              child0 ∈ child :: rest
                              /\ dict_get "address" child0 = Some (conv_address c)
                              /\ dict_get "name" child0 = Some (conv_name c)
                              /\ conv_step c <> AnalyzeIrpMemoryAccess) asked).
    { eapply Forall_impl; [exact Hall|]. intros c Hc. exists child.
      split; [apply list_elem_of_here|done]. }
    assert (Hlen' : length asked <= 2)
      by (destruct (pipeline.is_external child); lia).
    destruct (pipeline.describe_child child w) as [[[desc mem_code]|e] w1];
      cbn [fst snd] in *; cbv beta iota.
    + destruct (IH (sections ++ [pipeline.format_child_section child desc])
                   (if nonempty mem_code
                    then codes ++ ["### " +:+ pipeline.fmt_get "name" child
                                   +:+ " 可控内存参数" +:+ nl +:+ py_strip mem_code]
                    else codes) w1) as (asked' & -> & Hlen2 & Hall2).
      exists (asked ++ asked'). rewrite Hreq, <- app_assoc. split; [done|].
      split; [rewrite length_app; cbn [length]; lia|].
      apply Forall_app. split; [done|].
      eapply Forall_impl; [exact Hall2|]. intros c (child0 & Hin & Hrest).
      exists child0. split; [by apply list_elem_of_further|done].
    + destruct (IH sections codes w1) as (asked' & -> & Hlen2 & Hall2).
      exists (asked ++ asked'). rewrite Hreq, <- app_assoc. split; [done|].
      split; [rewrite length_app; cbn [length]; lia|].
      apply Forall_app. split; [done|].
      eapply Forall_impl; [exact Hall2|]. intros c (child0 & Hin & Hrest).
      exists child0. split; [by apply list_elem_of_further|done].
Qed.
